(** * minidkvs: a shallow embedding of pkg/minidkvs (core.go, memory.go)

    The Go package is a single-node key/value database whose operations are
    serialised through one goroutine ([dbMessageLoop]) and whose remote
    deltas go through a timestamp/identity conflict resolver
    ([handleReceive]).  The embedding follows the source function by
    function:

    - [Value], [Delta], [GetResult], [TryGet] are the Go structs;
    - the [Storage] interface is a type class over the backend's state;
    - code that calls the interface lives in a small state-and-trace monad
      [M]: the state is the [Database], the trace lists the Storage calls
      the code made, in order;
    - [time.Now().Unix()] is an input: every turn of the message loop is
      given the clock reading it would observe;
    - [MemoryStorage] is the map-backed implementation of memory.go. *)

From Stdlib Require Import ZArith List Lia.
From Stdlib.Strings Require Import Ascii String Byte.
From stdpp Require Import base option list strings gmap.

Local Open Scope Z_scope.

(** ** Integers

    [Value.Version] is a Go [int] (64 bits on the platforms Go's own
    toolchain targets by default); [Value.ModifiedAt] is an [int64].
    Addition on [int] wraps around in two's complement. *)

Definition intSize : Z := 64.
Definition maxInt : Z := 2 ^ (intSize - 1) - 1.
Definition minInt : Z := - 2 ^ (intSize - 1).

Definition wrapInt (z : Z) : Z :=
  (z + 2 ^ (intSize - 1)) mod 2 ^ intSize - 2 ^ (intSize - 1).

Definition int_add (a b : Z) : Z := wrapInt (a + b).

(** ** uuid.UUID and its canonical text form

    [uuid.UUID] is [[16]byte]; [UUID.String] prints it as lower-case
    hexadecimal in the groups 4-2-2-2-6 separated by dashes
    (github.com/google/uuid, [encodeHex]).  Go compares strings with [<]
    byte by byte, which is [String.ltb]. *)

Definition UUID : Type := list byte.

Definition hextable : string := "0123456789abcdef".

Definition hexDigit (n : N) : ascii :=
  match String.get (N.to_nat n) hextable with
  | Some c => c
  | None => "0"%char
  end.

Fixpoint hexEncode (src : list byte) : string :=
  match src with
  | [] => EmptyString
  | b :: rest =>
      String (hexDigit (N.shiftr (Byte.to_N b) 4))
        (String (hexDigit (N.land (Byte.to_N b) 15)) (hexEncode rest))
  end.

Definition UUID_String (u : UUID) : string :=
  hexEncode (take 4 u) +:+ "-" +:+
  hexEncode (take 2 (drop 4 u)) +:+ "-" +:+
  hexEncode (take 2 (drop 6 u)) +:+ "-" +:+
  hexEncode (take 2 (drop 8 u)) +:+ "-" +:+
  hexEncode (drop 10 u).

(** ** Data model (core.go, lines 24-52)

    Field names are those of the Go structs; [Delta.Value] and
    [GetResult.Value] are [DValue] and [GValue], since [Value] names the
    record. *)

Record Value : Type := mkValue {
  Version : Z;
  ModifiedBy : UUID;
  ModifiedAt : Z;
  Deleted : bool;
  Content : list byte
}.

(** [Delta.Value] is a [*Value]; the embedding covers deltas that carry a
    value (a nil pointer makes [handleReceive] panic on its first use). *)
Record Delta : Type := mkDelta {
  Key : string;
  DValue : Value
}.

Record GetResult : Type := mkGetResult {
  HasValue : bool;
  GValue : list byte
}.

(** A Go [error]; [None] is the nil error. *)
Definition error : Type := string.

Record TryGet : Type := mkTryGet {
  Result : GetResult;
  Error : option error
}.

(** The zero [GetResult], as left by [TryGet{Error: err}]. *)
Definition zeroGetResult : GetResult := mkGetResult false [].

(** ** The Storage interface (core.go, lines 9-15)

    Each method receives the backend's state and returns the Go result
    tuple together with the state it leaves behind.  A result made of a
    [*Value] and an [error] is the pair of an optional value and an
    optional error. *)

Class Storage (S : Type) : Type := {
  Storage_Get : string -> S -> (option Value * option error) * S;
  Storage_Set : string -> Value -> S -> option error * S;
  Storage_Delete : string -> S -> option error * S;
  Storage_GetNodeID : S -> (UUID * option error) * S
}.

(** The Storage calls a piece of code makes, in order. *)
Inductive Call : Type :=
| CallGet (key : string)
| CallSet (key : string) (v : Value).

Definition written (c : Call) : option Value :=
  match c with CallSet _ v => Some v | CallGet _ => None end.

(** ** Requests to the sequencer (core.go, lines 159-230)

    A [dbMessage] is a tag ([msgType]) with the payload that goes with it;
    the only way the package builds one is through the five [new...Message]
    functions, which are the constructors here.  The reply channels are
    left out: a handler's result is the value it sends on its channel. *)

Record dbMessageReceive : Type := { delta : Delta }.
Record dbMessageSet : Type := { set_key : string; set_value : list byte }.
Record dbMessageGet : Type := { get_key : string }.
Record dbMessageDelete : Type := { delete_key : string }.

Inductive dbMessage : Type :=
| newReceiveMessage (data : dbMessageReceive)
| newSetMessage (data : dbMessageSet)
| newGetMessage (data : dbMessageGet)
| newDeleteMessage (data : dbMessageDelete)
| newCloseMessage.

(** What a handler sends back to the blocked caller. *)
Inductive Reply : Type :=
| ReplyError (e : option error)
| ReplyGet (t : TryGet).

(** How a Go statement completes: normally, or by a [break] that is still
    looking for its target. *)
Inductive Completion : Type := Normal | Break.

(** An unlabelled [break] targets the innermost [for], [switch] or
    [select]; a [switch] therefore absorbs the [break] of its clauses. *)
Definition switch_stmt {A : Type} (r : Completion * A) : Completion * A :=
  match fst r with
  | Normal => (Normal, snd r)
  | Break => (Normal, snd r)
  end.

(** Where the sequencer goroutine is once the inbox is drained: still
    inside the [for] (blocked on the channel) or past it. *)
Inductive LoopState : Type := Running | Closed.

(** ** The state-and-trace monad *)

Section Monad.
Context {S : Type}.

(** core.go, lines 18-22; [msgChan] is the inbox of [dbMessageLoop]. *)
Record Database : Type := mkDatabase {
  storage : S;
  nodeID : UUID
}.

(** State ([Database]) and trace (Storage calls made). *)
Definition M (A : Type) : Type := Database -> A * Database * list Call.

Definition ret {A : Type} (a : A) : M A := fun d => (a, d, []).

Definition bind {A B : Type} (m : M A) (f : A -> M B) : M B :=
  fun d =>
    let '(a, d1, t1) := m d in
    let '(b, d2, t2) := f a d1 in
    (b, d2, t1 ++ t2).

Definition result {A : Type} (r : A * Database * list Call) : A := fst (fst r).
Definition final {A : Type} (r : A * Database * list Call) : Database := snd (fst r).
Definition calls {A : Type} (r : A * Database * list Call) : list Call := snd r.
End Monad.

Arguments Database S : clear implicits.
Arguments M S A : clear implicits.

Notation "'let*' x ':=' m 'in' k" := (bind m (fun x => k))
  (at level 10, x name, m at level 100, k at level 200).

(** ** The core (core.go) *)

Section Core.
Context {S : Type} `{Storage S}.

(** [d.storage.Get(key)] *)
Definition storageGet (key : string) : M S (option Value * option error) :=
  fun d =>
    let '(r, s) := Storage_Get key (storage d) in
    (r, mkDatabase s (nodeID d), [CallGet key]).

(** [d.storage.Set(key, v)] *)
Definition storageSet (key : string) (v : Value) : M S (option error) :=
  fun d =>
    let '(e, s) := Storage_Set key v (storage d) in
    (e, mkDatabase s (nodeID d), [CallSet key v]).

(** [d.nodeID] *)
Definition getNodeID : M S UUID := fun d => (nodeID d, d, []).

(** core.go, lines 55-70.  The goroutine started here is [dbMessageLoop]. *)
Definition NewDatabase (st : S) : option (Database S) * option error :=
  let '((id, err), st') := Storage_GetNodeID st in
  match err with
  | Some e => (None, Some e)
  | None => (Some (mkDatabase st' id), None)
  end.

(** core.go, lines 74-94; [now] is the reading of [time.Now().Unix()]. *)
Definition newValue (key : string) (bytes : list byte) (deleted : bool)
    (now : Z) : M S (option Value * option error) :=
  let* r := storageGet key in
  match snd r with
  | Some err => ret (None, Some err)
  | None =>
      let version :=
        match fst r with
        | Some value => int_add (Version value) 1
        | None => 1
        end in
      let* id := getNodeID in
      ret (Some (mkValue version id now deleted bytes), None)
  end.

(** core.go, lines 98-103 *)
Definition existingIsConflictWinner (existing new : Value) : bool :=
  if ModifiedAt existing =? ModifiedAt new
  then String.ltb (UUID_String (ModifiedBy existing))
                  (UUID_String (ModifiedBy new))
  else ModifiedAt existing >? ModifiedAt new.

(** core.go, lines 97-115 *)
Definition handleReceive (delta : Delta) : M S (option error) :=
  let* r := storageGet (Key delta) in
  match snd r with
  | Some err => ret (Some err)
  | None =>
      if match fst r with
         | None => true
         | Some existing => existingIsConflictWinner existing (DValue delta)
         end
      then storageSet (Key delta) (DValue delta)
      else ret None
  end.
End Core.

(** The closures of [dbMessageLoop] (core.go, lines 233-269); each returns
    what it sends on the request's reply channel. *)
Module dbMessageLoop.
Section Closures.
Context {S : Type} `{Storage S}.

Definition receive (m : dbMessageReceive) : M S (option error) :=
  handleReceive (delta m).

(** [newValue] returns a value exactly when it returns no error, so the
    last case of [set] and [delete] is never taken. *)
Definition set (m : dbMessageSet) (now : Z) : M S (option error) :=
  let* r := newValue (set_key m) (set_value m) false now in
  match r with
  | (_, Some err) => ret (Some err)
  | (Some value, None) => storageSet (set_key m) value
  | (None, None) => ret None
  end.

Definition get (m : dbMessageGet) : M S TryGet :=
  let* r := storageGet (get_key m) in
  match snd r with
  | Some err => ret (mkTryGet zeroGetResult (Some err))
  | None =>
      match fst r with
      | None => ret (mkTryGet (mkGetResult false []) None)
      | Some value =>
          if Deleted value
          then ret (mkTryGet (mkGetResult false []) None)
          else ret (mkTryGet (mkGetResult true (Content value)) None)
      end
  end.

Definition delete (m : dbMessageDelete) (now : Z) : M S (option error) :=
  let* r := newValue (delete_key m) [] true now in
  match r with
  | (_, Some err) => ret (Some err)
  | (Some value, None) => storageSet (delete_key m) value
  | (None, None) => ret None
  end.
End Closures.
End dbMessageLoop.

Section Sequencer.
Context {S : Type} `{Storage S}.

(** The clauses of the [switch] (core.go, lines 274-285): how the clause
    that ran completed, and the replies it sent. *)
Definition dispatch (msg : dbMessage) (now : Z) : M S (Completion * list Reply) :=
  match msg with
  | newReceiveMessage m =>
      let* e := dbMessageLoop.receive m in ret (Normal, [ReplyError e])
  | newSetMessage m =>
      let* e := dbMessageLoop.set m now in ret (Normal, [ReplyError e])
  | newGetMessage m =>
      let* t := dbMessageLoop.get m in ret (Normal, [ReplyGet t])
  | newDeleteMessage m =>
      let* e := dbMessageLoop.delete m now in ret (Normal, [ReplyError e])
  | _ => ret (Break, [])
  end.

(** One turn of the [for] body: the [switch] statement as a whole. *)
Definition turn (msg : dbMessage) (now : Z) : M S (Completion * list Reply) :=
  let* r := dispatch msg now in
  ret (switch_stmt r).

(** core.go, lines 271-286.  [inbox] lists what [<-db.msgChan] delivers,
    each message with the clock reading of its turn; with the inbox
    drained the goroutine blocks on the channel, still in the loop. *)
Fixpoint dbMessageLoop (inbox : list (Z * dbMessage)) : M S (LoopState * list Reply) :=
  match inbox with
  | [] => ret (Running, [])
  | (now, msg) :: rest =>
      let* r := turn msg now in
      match fst r with
      | Break => ret (Closed, snd r)
      | Normal =>
          let* r' := dbMessageLoop rest in
          ret (fst r', snd r ++ snd r')
      end
  end.

(** The handle's methods (core.go, lines 117-157): each posts one request
    and returns what the sequencer replies. *)

Definition Database_ReceiveRemote (delta : Delta) : M S (option error) :=
  dbMessageLoop.receive {| delta := delta |}.

Definition Database_Get (key : string) : M S (GetResult * option error) :=
  let* try := dbMessageLoop.get {| get_key := key |} in
  ret (Result try, Error try).

Definition Database_Set (key : string) (value : list byte) (now : Z)
    : M S (option error) :=
  dbMessageLoop.set {| set_key := key; set_value := value |} now.

Definition Database_Delete (key : string) (now : Z) : M S (option error) :=
  dbMessageLoop.delete {| delete_key := key |} now.

(** [Close] posts this request and waits for no reply. *)
Definition Database_Close : dbMessage := newCloseMessage.

(** A replica that receives the deltas of [ds] one after the other. *)
Fixpoint receiveAll (ds : list Delta) : M S (list (option error)) :=
  match ds with
  | [] => ret []
  | delta :: rest =>
      let* e := Database_ReceiveRemote delta in
      let* es := receiveAll rest in
      ret (e :: es)
  end.

(** One local write to [key]: [Some bytes] is a [Set], [None] a
    [Delete]. *)
Definition writeOne (key : string) (now : Z) (w : option (list byte))
    : M S (option error) :=
  match w with
  | Some bytes => Database_Set key bytes now
  | None => Database_Delete key now
  end.

(** Local writes to one key, one after the other, each with its clock
    reading. *)
Fixpoint writeAll (key : string) (ws : list (Z * option (list byte)))
    : M S (list (option error)) :=
  match ws with
  | [] => ret []
  | (now, w) :: rest =>
      let* e := writeOne key now w in
      let* es := writeAll key rest in
      ret (e :: es)
  end.
End Sequencer.

(** ** The in-memory backend (memory.go) *)

Record MemoryStorage : Type := mkMemoryStorage {
  data : gmap string Value;
  memNodeID : UUID
}.

(** memory.go, lines 13-36 *)
#[export] Instance MemoryStorage_Storage : Storage MemoryStorage := {
  Storage_Get key m :=
    match data m !! key with
    | None => ((None, None), m)
    | Some val => ((Some val, None), m)
    end;
  Storage_Set key value m :=
    (None, mkMemoryStorage (<[key := value]> (data m)) (memNodeID m));
  Storage_Delete key m :=
    (None, mkMemoryStorage (base.delete key (data m)) (memNodeID m));
  Storage_GetNodeID m := ((memNodeID m, None), m)
}.

(** memory.go, lines 39-51; [rnd] is the outcome of [uuid.NewRandom]. *)
Definition NewMemoryStorage (rnd : UUID * option error)
    : option MemoryStorage * option error :=
  match snd rnd with
  | Some err => (None, Some err)
  | None => (Some (mkMemoryStorage ∅ (fst rnd)), None)
  end.

(** memory.go, lines 55-61 *)
Definition NewMemoryDatabase (rnd : UUID * option error)
    : option (Database MemoryStorage) * option error :=
  match NewMemoryStorage rnd with
  | (_, Some err) => (None, Some err)
  | (Some st, None) => NewDatabase st
  | (None, None) => (None, None)
  end.

(** ** What the core expects of a backend

    [StorageContract]: a value whose [Set] succeeded is what the next [Get]
    of that key returns.  [ReliableStorage]: moreover no call fails. *)

Class StorageContract (S : Type) `{Storage S} : Prop := {
  Get_after_Set : forall key v s s',
    Storage_Set key v s = (None, s') ->
    fst (Storage_Get key s') = (Some v, None)
}.

Class ReliableStorage (S : Type) `{Storage S} : Prop := {
  reliable_contract :: StorageContract S;
  reliable_Get : forall key s, snd (fst (Storage_Get key s)) = None;
  reliable_Set : forall key v s, fst (Storage_Set key v s) = None
}.

(** A backend for the error paths, which [MemoryStorage] never takes: reads
    of the keys in [broken] fail with [failure]; everything else is passed
    to the map underneath. *)
Record FailingReads : Type := mkFailingReads {
  backing : MemoryStorage;
  broken : list string;
  failure : error
}.

#[export] Instance FailingReads_Storage : Storage FailingReads := {
  Storage_Get key f :=
    if bool_decide (key ∈ broken f)
    then ((None, Some (failure f)), f)
    else let '(r, m) := Storage_Get key (backing f) in
         (r, mkFailingReads m (broken f) (failure f));
  Storage_Set key value f :=
    let '(e, m) := Storage_Set key value (backing f) in
    (e, mkFailingReads m (broken f) (failure f));
  Storage_Delete key f :=
    let '(e, m) := Storage_Delete key (backing f) in
    (e, mkFailingReads m (broken f) (failure f));
  Storage_GetNodeID f :=
    let '(r, m) := Storage_GetNodeID (backing f) in
    (r, mkFailingReads m (broken f) (failure f))
}.

(** What [handleReceive] leaves stored for a key that held [cur] when a
    delta carrying [new] arrives and no Storage call fails. *)
Definition resolve (cur : option Value) (new : Value) : option Value :=
  match cur with
  | None => Some new
  | Some existing =>
      if existingIsConflictWinner existing new then Some new else Some existing
  end.

(** [resolve] along the deltas of [ds] that are for [key]. *)
Definition resolveAll (key : string) (cur : option Value) (ds : list Delta)
    : option Value :=
  foldl (fun c delta => if bool_decide (Key delta = key)
                        then resolve c (DValue delta) else c) cur ds.

(** Two deltas the resolver cannot tell apart: same key, timestamp and
    writer (in the text form it compares). *)
Definition sameStamp (a b : Delta) : Prop :=
  Key a = Key b /\
  ModifiedAt (DValue a) = ModifiedAt (DValue b) /\
  UUID_String (ModifiedBy (DValue a)) = UUID_String (ModifiedBy (DValue b)).

(** The value [newValue] builds when its read returned [cur] and no error. *)
Definition stamped (cur : option Value) (id : UUID) (now : Z)
    (deleted : bool) (bytes : list byte) : Value :=
  mkValue (match cur with
           | Some value => int_add (Version value) 1
           | None => 1
           end) id now deleted bytes.

(** The value a local write stores: [Some bytes] is a [Set], [None] a
    [Delete]. *)
Definition stampedWrite (cur : option Value) (id : UUID) (now : Z)
    (w : option (list byte)) : Value :=
  match w with
  | Some bytes => stamped cur id now false bytes
  | None => stamped cur id now true []
  end.

(** The versions a trace wrote, in order. *)
Definition writtenVersions (t : list Call) : list Z :=
  omap (fun c => Version <$> written c) t.

(** ** Sample data *)

Definition nodeA : UUID := replicate 15 x00 ++ [x0a].
Definition nodeB : UUID := replicate 15 x00 ++ [x0b].

Definition memoryDatabase (id : UUID) (kvs : list (string * Value))
    : Database MemoryStorage :=
  mkDatabase (mkMemoryStorage (list_to_map kvs) id) id.

Definition failingDatabase (id : UUID) (kvs : list (string * Value))
    (bad : list string) : Database FailingReads :=
  mkDatabase
    (mkFailingReads (mkMemoryStorage (list_to_map kvs) id) bad "read failed") id.

(** A value another replica sent with the largest version an [int] holds. *)
Definition lastVersion : Value := mkValue maxInt nodeB 7 false [x01].

(** Two writes of one key by node A within the same second. *)
Definition firstWrite : Delta := mkDelta "k" (mkValue 1 nodeA 100 false [x01]).
Definition secondWrite : Delta := mkDelta "k" (mkValue 2 nodeA 100 false [x02]).

(** Writes of one key by nodes A and B: at different times, and within the
    same second. *)
Definition olderByA : Value := mkValue 1 nodeA 100 false [x01].
Definition newerByB : Value := mkValue 1 nodeB 200 false [x02].
Definition tiedByA : Value := mkValue 1 nodeA 100 false [x01].
Definition tiedByB : Value := mkValue 1 nodeB 100 false [x02].

(** The value stored under [key] in a [MemoryStorage]-backed database. *)
Definition stored (key : string) (d : Database MemoryStorage) : option Value :=
  data (storage d) !! key.

(** A backend that refuses every write: [Set] and [Delete] fail with
    [refusal] and change nothing; reads are passed to the map underneath. *)
Record ReadOnlyStorage : Type := mkReadOnlyStorage {
  frozen : MemoryStorage;
  refusal : error
}.

#[export] Instance ReadOnlyStorage_Storage : Storage ReadOnlyStorage := {
  Storage_Get key f :=
    let '(r, m) := Storage_Get key (frozen f) in
    (r, mkReadOnlyStorage m (refusal f));
  Storage_Set key value f := (Some (refusal f), f);
  Storage_Delete key f := (Some (refusal f), f);
  Storage_GetNodeID f :=
    let '(r, m) := Storage_GetNodeID (frozen f) in
    (r, mkReadOnlyStorage m (refusal f))
}.

Definition readOnlyDatabase (id : UUID) (kvs : list (string * Value))
    : Database ReadOnlyStorage :=
  mkDatabase
    (mkReadOnlyStorage (mkMemoryStorage (list_to_map kvs) id) "read-only") id.

(** The key a request is about; a Close request is about none. *)
Definition keyOf (msg : dbMessage) : option string :=
  match msg with
  | newReceiveMessage m => Some (Key (delta m))
  | newSetMessage m => Some (set_key m)
  | newGetMessage m => Some (get_key m)
  | newDeleteMessage m => Some (delete_key m)
  | newCloseMessage => None
  end.

(** The key a Storage call is about. *)
Definition callKey (c : Call) : string :=
  match c with CallGet key => key | CallSet key _ => key end.

(** The requests of an inbox that wait for a reply (all but Close). *)
Definition awaitsReply (msg : dbMessage) : bool :=
  match msg with newCloseMessage => false | _ => true end.

(** What [Get] answers for a stored value: its content, unless it is a
    tombstone. *)
Definition visible (v : Value) : GetResult :=
  if Deleted v then mkGetResult false [] else mkGetResult true (Content v).

(** Whether [r] is the kind of reply the request [msg] waits for: a
    [TryGet] for a Get, an error value for the other requests. *)
Definition answers (msg : Z * dbMessage) (r : Reply) : Prop :=
  match snd msg, r with
  | newGetMessage _, ReplyGet _ => True
  | newReceiveMessage _, ReplyError _ => True
  | newSetMessage _, ReplyError _ => True
  | newDeleteMessage _, ReplyError _ => True
  | _, _ => False
  end.

(** ** The order behind the conflict resolver *)

Section ResolverOrder.

Lemma String_compare_refl (s : string) : String.compare s s = Eq.
Proof.
  pose proof (String.compare_antisym s s) as E.
  destruct (String.compare s s); simpl in E; congruence.
Qed.

Lemma String_ltb_irrefl (s : string) : String.ltb s s = false.
Proof. unfold String.ltb. now rewrite String_compare_refl. Qed.

Lemma String_ltb_leb (s1 s2 : string) :
  String.ltb s1 s2 = true <-> String.leb s1 s2 = true /\ s1 <> s2.
Proof.
  unfold String.ltb, String.leb. split.
  - destruct (String.compare s1 s2) eqn:E; try discriminate.
    intros _. split; [reflexivity|].
    intros ->. rewrite String_compare_refl in E. discriminate.
  - intros [L N]. destruct (String.compare s1 s2) eqn:E; try discriminate.
    + apply String.compare_eq_iff in E. contradiction.
    + reflexivity.
Qed.

Lemma String_ltb_trans (s1 s2 s3 : string) :
  String.ltb s1 s2 = true -> String.ltb s2 s3 = true -> String.ltb s1 s3 = true.
Proof.
  rewrite !String_ltb_leb. intros [L12 N12] [L23 N23].
  assert (L13 : String.le s1 s3).
  { transitivity s2; unfold String.le; [rewrite L12|rewrite L23]; exact I. }
  split.
  - unfold String.le in L13. destruct (String.leb s1 s3); [reflexivity|contradiction].
  - intros ->. apply N12. now apply String.leb_antisym.
Qed.

Lemma String_ltb_tie (s1 s2 : string) :
  String.ltb s1 s2 = false -> String.ltb s2 s1 = false -> s1 = s2.
Proof.
  unfold String.ltb. rewrite (String.compare_antisym s1 s2).
  destruct (String.compare s2 s1) eqn:E; simpl; intros H1 H2; try discriminate.
  symmetry. now apply String.compare_eq_iff.
Qed.

Lemma winner_irrefl (v : Value) : existingIsConflictWinner v v = false.
Proof.
  unfold existingIsConflictWinner. rewrite Z.eqb_refl. apply String_ltb_irrefl.
Qed.

Lemma winner_trans (a b c : Value) :
  existingIsConflictWinner a b = true ->
  existingIsConflictWinner b c = true ->
  existingIsConflictWinner a c = true.
Proof.
  unfold existingIsConflictWinner.
  destruct (Z.eqb_spec (ModifiedAt a) (ModifiedAt b)) as [Eab|Nab];
  destruct (Z.eqb_spec (ModifiedAt b) (ModifiedAt c)) as [Ebc|Nbc];
  destruct (Z.eqb_spec (ModifiedAt a) (ModifiedAt c)) as [Eac|Nac];
  intros Hab Hbc; try lia.
  eapply String_ltb_trans; eassumption.
Qed.

Lemma winner_tie (a b : Value) :
  existingIsConflictWinner a b = false ->
  existingIsConflictWinner b a = false ->
  ModifiedAt a = ModifiedAt b /\
  UUID_String (ModifiedBy a) = UUID_String (ModifiedBy b).
Proof.
  unfold existingIsConflictWinner.
  destruct (Z.eqb_spec (ModifiedAt a) (ModifiedAt b)) as [Eab|Nab];
  destruct (Z.eqb_spec (ModifiedAt b) (ModifiedAt a)) as [Eba|Nba];
  intros Hab Hba; try lia.
  split; [assumption|]. now apply String_ltb_tie.
Qed.

End ResolverOrder.

(** ** Running the handlers against any backend *)

Ltac unfold_core :=
  unfold Database_Get, Database_Set, Database_Delete, Database_ReceiveRemote,
    dbMessageLoop.get, dbMessageLoop.set, dbMessageLoop.delete,
    dbMessageLoop.receive, handleReceive, newValue,
    storageGet, storageSet, getNodeID, bind, ret, result, final, calls.

Section Handlers.
Context {S : Type} `{Storage S}.
Implicit Types (d : Database S) (key : string).

Lemma newValue_ok d key bytes deleted now cur s1 :
  Storage_Get key (storage d) = ((cur, None), s1) ->
  newValue key bytes deleted now d =
    ((Some (stamped cur (nodeID d) now deleted bytes), None),
     mkDatabase s1 (nodeID d), [CallGet key]).
Proof. unfold_core. intros ->. reflexivity. Qed.

Lemma newValue_error d key bytes deleted now cur e s1 :
  Storage_Get key (storage d) = ((cur, Some e), s1) ->
  newValue key bytes deleted now d =
    ((None, Some e), mkDatabase s1 (nodeID d), [CallGet key]).
Proof. unfold_core. intros ->. reflexivity. Qed.

Lemma write_ok d key bytes deleted now cur s1 e s2 :
  Storage_Get key (storage d) = ((cur, None), s1) ->
  Storage_Set key (stamped cur (nodeID d) now deleted bytes) s1 = (e, s2) ->
  (let* r := newValue key bytes deleted now in
   match r with
   | (_, Some err) => ret (Some err)
   | (Some value, None) => storageSet key value
   | (None, None) => ret None
   end) d =
  (e, mkDatabase s2 (nodeID d),
   [CallGet key; CallSet key (stamped cur (nodeID d) now deleted bytes)]).
Proof.
  intros G W. unfold bind at 1. rewrite (newValue_ok _ _ _ _ _ _ _ G).
  unfold storageSet. simpl. rewrite W. reflexivity.
Qed.

Lemma write_error d key bytes deleted now cur e s1 :
  Storage_Get key (storage d) = ((cur, Some e), s1) ->
  (let* r := newValue key bytes deleted now in
   match r with
   | (_, Some err) => ret (Some err)
   | (Some value, None) => storageSet key value
   | (None, None) => ret None
   end) d =
  (Some e, mkDatabase s1 (nodeID d), [CallGet key]).
Proof.
  intros G. unfold bind at 1. rewrite (newValue_error _ _ _ _ _ _ _ _ G).
  reflexivity.
Qed.

Lemma Database_Set_ok d key bytes now cur s1 e s2 :
  Storage_Get key (storage d) = ((cur, None), s1) ->
  Storage_Set key (stamped cur (nodeID d) now false bytes) s1 = (e, s2) ->
  Database_Set key bytes now d =
    (e, mkDatabase s2 (nodeID d),
     [CallGet key; CallSet key (stamped cur (nodeID d) now false bytes)]).
Proof. apply write_ok. Qed.

Lemma Database_Set_error d key bytes now cur e s1 :
  Storage_Get key (storage d) = ((cur, Some e), s1) ->
  Database_Set key bytes now d =
    (Some e, mkDatabase s1 (nodeID d), [CallGet key]).
Proof. apply write_error. Qed.

Lemma Database_Delete_ok d key now cur s1 e s2 :
  Storage_Get key (storage d) = ((cur, None), s1) ->
  Storage_Set key (stamped cur (nodeID d) now true []) s1 = (e, s2) ->
  Database_Delete key now d =
    (e, mkDatabase s2 (nodeID d),
     [CallGet key; CallSet key (stamped cur (nodeID d) now true [])]).
Proof. apply write_ok. Qed.

Lemma Database_Delete_error d key now cur e s1 :
  Storage_Get key (storage d) = ((cur, Some e), s1) ->
  Database_Delete key now d =
    (Some e, mkDatabase s1 (nodeID d), [CallGet key]).
Proof. apply write_error. Qed.

Lemma handleReceive_ok d delta cur s1 :
  Storage_Get (Key delta) (storage d) = ((cur, None), s1) ->
  handleReceive delta d =
    if match cur with
       | None => true
       | Some existing => existingIsConflictWinner existing (DValue delta)
       end
    then (fst (Storage_Set (Key delta) (DValue delta) s1),
          mkDatabase (snd (Storage_Set (Key delta) (DValue delta) s1)) (nodeID d),
          [CallGet (Key delta); CallSet (Key delta) (DValue delta)])
    else (None, mkDatabase s1 (nodeID d), [CallGet (Key delta)]).
Proof.
  unfold_core. intros ->. simpl.
  destruct (match cur with None => true | Some e => _ end); [|reflexivity].
  simpl. destruct (Storage_Set _ _ _). reflexivity.
Qed.

Lemma Database_Get_run d key :
  Database_Get key d =
    let '((cur, err), s1) := Storage_Get key (storage d) in
    (match err with
     | Some e => (zeroGetResult, Some e)
     | None =>
         match cur with
         | None => (mkGetResult false [], None)
         | Some value =>
             if Deleted value then (mkGetResult false [], None)
             else (mkGetResult true (Content value), None)
         end
     end, mkDatabase s1 (nodeID d), [CallGet key]).
Proof.
  unfold_core. simpl.
  destruct (Storage_Get key (storage d)) as [[cur [e|]] s1]; simpl.
  - reflexivity.
  - destruct cur as [v|]; simpl; [destruct (Deleted v)|]; reflexivity.
Qed.

End Handlers.

(** ** The in-memory backend honours the contract *)

Lemma NewMemoryDatabase_empty (id : UUID) :
  NewMemoryDatabase (id, None) = (Some (memoryDatabase id []), None).
Proof. reflexivity. Qed.

Lemma MemoryStorage_Get key (m : MemoryStorage) :
  Storage_Get key m = ((data m !! key, None), m).
Proof. simpl. destruct (data m !! key); reflexivity. Qed.

#[export] Instance MemoryStorage_contract : StorageContract MemoryStorage.
Proof.
  constructor. intros key v s s' W. rewrite MemoryStorage_Get.
  simpl in W. injection W as <-. simpl. now rewrite lookup_insert_eq.
Qed.

#[export] Instance MemoryStorage_reliable : ReliableStorage MemoryStorage.
Proof.
  constructor.
  - exact MemoryStorage_contract.
  - intros key s. now rewrite MemoryStorage_Get.
  - reflexivity.
Qed.

(** ** Reads *)

(** C8: when the Storage read of [key] returns no value or a tombstone
    (and no error), [Get] answers [hasValue = false] with a nil error; when
    the read returns an error, [Get] hands that very error to the caller. *)
Theorem Get_absent_is_not_an_error {S : Type} `{Storage S}
    (d : Database S) (key : string) :
  (forall cur s1,
      Storage_Get key (storage d) = ((cur, None), s1) ->
      cur = None \/ (exists v, cur = Some v /\ Deleted v = true) ->
      result (Database_Get key d) = (mkGetResult false [], None)) /\
  (forall cur e s1,
      Storage_Get key (storage d) = ((cur, Some e), s1) ->
      result (Database_Get key d) = (zeroGetResult, Some e)).
Proof.
  split.
  - intros cur s1 G A. rewrite Database_Get_run, G. unfold result. simpl.
    destruct A as [->|(v & -> & Dv)]; [reflexivity|]. now rewrite Dv.
  - intros cur e s1 G. rewrite Database_Get_run, G. reflexivity.
Qed.

Lemma Get_absent_is_not_an_error_witness :
  result (Database_Get "never" (memoryDatabase nodeA [])) =
    (mkGetResult false [], None) /\
  result (Database_Get "gone"
            (memoryDatabase nodeA [("gone", mkValue 2 nodeB 7 true [])])) =
    (mkGetResult false [], None) /\
  result (Database_Get "k" (failingDatabase nodeA [] ["k"])) =
    (zeroGetResult, Some "read failed").
Proof.
  split; [|split].
  - eapply (proj1 (Get_absent_is_not_an_error _ "never")).
    + reflexivity.
    + left. reflexivity.
  - eapply (proj1 (Get_absent_is_not_an_error _ "gone")).
    + reflexivity.
    + right. eexists. split; reflexivity.
  - eapply (proj2 (Get_absent_is_not_an_error _ "k")). reflexivity.
Defined.

(** C10: against the in-memory backend [Get] leaves the database exactly
    as it found it: its only Storage call is the read, and every key maps
    to what it mapped to before. *)
Theorem Get_leaves_memory_unchanged (d : Database MemoryStorage) (key : string) :
  final (Database_Get key d) = d /\
  calls (Database_Get key d) = [CallGet key] /\
  forall key', stored key' (final (Database_Get key d)) = stored key' d.
Proof.
  rewrite Database_Get_run, MemoryStorage_Get. unfold final, calls. simpl.
  destruct d as [m id]. simpl. repeat split; reflexivity.
Qed.

(** ** Local writes *)

(** C9: when the Storage read that [Set] or [Delete] makes to derive the
    version fails with [e], the caller gets [e], the failed read is the
    only Storage call (no [Storage.Set]), and the backend is left in the
    state in which that read left it, so unchanged if the read changed
    nothing. *)
Theorem write_read_error_has_no_effect {S : Type} `{Storage S}
    (d : Database S) (key : string) (bytes : list byte) (now : Z)
    (cur : option Value) (e : error) (s1 : S) :
  Storage_Get key (storage d) = ((cur, Some e), s1) ->
  Database_Set key bytes now d = (Some e, mkDatabase s1 (nodeID d), [CallGet key]) /\
  Database_Delete key now d = (Some e, mkDatabase s1 (nodeID d), [CallGet key]) /\
  (s1 = storage d ->
   final (Database_Set key bytes now d) = d /\
   final (Database_Delete key now d) = d).
Proof.
  intros G.
  pose proof (Database_Set_error d key bytes now cur e s1 G) as ES.
  pose proof (Database_Delete_error d key now cur e s1 G) as ED.
  split; [exact ES|]. split; [exact ED|].
  intros ->. rewrite ES, ED. unfold final. simpl. now destruct d.
Qed.

Lemma write_read_error_has_no_effect_witness :
  let d := failingDatabase nodeA [("k", mkValue 3 nodeB 7 false [x01])] ["k"] in
  Database_Set "k" [x05] 9 d = (Some "read failed", d, [CallGet "k"]) /\
  Database_Delete "k" 9 d = (Some "read failed", d, [CallGet "k"]) /\
  (storage d = storage d ->
   final (Database_Set "k" [x05] 9 d) = d /\ final (Database_Delete "k" 9 d) = d).
Proof.
  intros d.
  exact (write_read_error_has_no_effect d "k" [x05] 9 None "read failed"
           (storage d) eq_refl).
Defined.

(** C5: for a backend that returns from [Get] what a successful [Set]
    stored, a [Set(key, bytes)] that returns no error is followed by a
    [Get(key)] that returns [hasValue = true], exactly [bytes], and no
    error. *)
Theorem Set_then_Get {S : Type} `{StorageContract S}
    (d d' : Database S) (key : string) (bytes : list byte) (now : Z)
    (t : list Call) :
  Database_Set key bytes now d = (None, d', t) ->
  result (Database_Get key d') = (mkGetResult true bytes, None).
Proof.
  destruct (Storage_Get key (storage d)) as [[cur [e|]] s1] eqn:G.
  - rewrite (Database_Set_error d key bytes now cur e s1 G). discriminate.
  - destruct (Storage_Set key (stamped cur (nodeID d) now false bytes) s1)
      as [e2 s2] eqn:W.
    rewrite (Database_Set_ok d key bytes now cur s1 e2 s2 G W).
    intros E. injection E as -> <- _.
    pose proof (Get_after_Set _ _ _ _ W) as G2.
    rewrite Database_Get_run. simpl.
    destruct (Storage_Get key s2) as [r s3]. simpl in G2. subst r.
    reflexivity.
Qed.

Lemma Set_then_Get_witness :
  result (Database_Get "test"
            (final (Database_Set "test" [x05] 1700000000 (memoryDatabase nodeA [])))) =
    (mkGetResult true [x05], None).
Proof.
  eapply (Set_then_Get (memoryDatabase nodeA []) _ "test" [x05] 1700000000).
  reflexivity.
Defined.

(** C6: on a backend whose calls do not fail, [Delete(key)] returns no
    error whatever the key held before (nothing included); it writes, with
    one [Storage.Set], a tombstone stamped with this node's identity, which
    is what the backend then holds for the key; and the [Get(key)] that
    follows answers [hasValue = false]. *)
Theorem Delete_stores_tombstone {S : Type} `{ReliableStorage S}
    (d : Database S) (key : string) (now : Z) :
  exists v : Value,
    result (Database_Delete key now d) = None /\
    calls (Database_Delete key now d) = [CallGet key; CallSet key v] /\
    Deleted v = true /\
    ModifiedBy v = nodeID d /\
    fst (Storage_Get key (storage (final (Database_Delete key now d)))) =
      (Some v, None) /\
    result (Database_Get key (final (Database_Delete key now d))) =
      (mkGetResult false [], None).
Proof.
  destruct (Storage_Get key (storage d)) as [[cur err] s1] eqn:G.
  pose proof (reliable_Get key (storage d)) as RG. rewrite G in RG.
  simpl in RG. subst err.
  set (v := stamped cur (nodeID d) now true []).
  destruct (Storage_Set key v s1) as [e2 s2] eqn:W.
  pose proof (reliable_Set key v s1) as RS. rewrite W in RS. simpl in RS. subst e2.
  exists v.
  rewrite (Database_Delete_ok d key now cur s1 None s2 G W). fold v. unfold result, calls, final. simpl.
  pose proof (Get_after_Set _ _ _ _ W) as G2.
  repeat split; try assumption.
  fold (result (Database_Get key (mkDatabase s2 (nodeID d)))).
  rewrite Database_Get_run. simpl.
  destruct (Storage_Get key s2) as [r s3]. simpl in G2. subst r. reflexivity.
Qed.

Lemma Delete_stores_tombstone_witness :
  exists v : Value,
    result (Database_Delete "k" 9 (memoryDatabase nodeA [])) = None /\
    calls (Database_Delete "k" 9 (memoryDatabase nodeA [])) =
      [CallGet "k"; CallSet "k" v] /\
    Deleted v = true /\
    ModifiedBy v = nodeID (memoryDatabase nodeA []) /\
    fst (Storage_Get "k"
           (storage (final (Database_Delete "k" 9 (memoryDatabase nodeA []))))) =
      (Some v, None) /\
    result (Database_Get "k"
              (final (Database_Delete "k" 9 (memoryDatabase nodeA [])))) =
      (mkGetResult false [], None).
Proof.
  exact (@Delete_stores_tombstone MemoryStorage _ MemoryStorage_reliable
           (memoryDatabase nodeA []) "k" 9).
Defined.

(** ** Versions of local writes *)

Lemma wrapInt_id (z : Z) : minInt <= z <= maxInt -> wrapInt z = z.
Proof.
  unfold wrapInt, minInt, maxInt, intSize. intros R.
  rewrite Z.mod_small; lia.
Qed.

Lemma int_add_succ (z : Z) : minInt <= z < maxInt -> int_add z 1 = z + 1.
Proof. intros R. unfold int_add. apply wrapInt_id. lia. Qed.

Lemma int_add_maxInt : int_add maxInt 1 = minInt.
Proof. reflexivity. Qed.

Section Runs.
Context {S : Type} `{Storage S}.
Implicit Types (d : Database S) (key : string).

Lemma bind_run {A B : Type} (m : M S A) (f : A -> M S B) d :
  bind m f d =
    (result (f (result (m d)) (final (m d))),
     final (f (result (m d)) (final (m d))),
     calls (m d) ++ calls (f (result (m d)) (final (m d)))).
Proof.
  unfold bind, result, final, calls.
  destruct (m d) as [[a d1] t1]. simpl.
  destruct (f a d1) as [[b d2] t2]. reflexivity.
Qed.

Lemma writeAll_cons key now w rest d :
  writeAll key ((now, w) :: rest) d =
    (result (writeOne key now w d)
       :: result (writeAll key rest (final (writeOne key now w d))),
     final (writeAll key rest (final (writeOne key now w d))),
     calls (writeOne key now w d)
       ++ calls (writeAll key rest (final (writeOne key now w d)))).
Proof.
  cbn [writeAll]. rewrite bind_run, bind_run.
  unfold ret, result, final, calls. simpl. now rewrite app_nil_r.
Qed.

Lemma receiveAll_cons delta rest d :
  receiveAll (delta :: rest) d =
    (result (Database_ReceiveRemote delta d)
       :: result (receiveAll rest (final (Database_ReceiveRemote delta d))),
     final (receiveAll rest (final (Database_ReceiveRemote delta d))),
     calls (Database_ReceiveRemote delta d)
       ++ calls (receiveAll rest (final (Database_ReceiveRemote delta d)))).
Proof.
  cbn [receiveAll]. rewrite bind_run, bind_run.
  unfold ret, result, final, calls. simpl. now rewrite app_nil_r.
Qed.

Lemma writeOne_ok d key now w cur s1 e s2 :
  Storage_Get key (storage d) = ((cur, None), s1) ->
  Storage_Set key (stampedWrite cur (nodeID d) now w) s1 = (e, s2) ->
  writeOne key now w d =
    (e, mkDatabase s2 (nodeID d),
     [CallGet key; CallSet key (stampedWrite cur (nodeID d) now w)]).
Proof.
  destruct w as [bytes|]; simpl.
  - apply Database_Set_ok.
  - apply Database_Delete_ok.
Qed.

End Runs.

Lemma writtenVersions_app (t1 t2 : list Call) :
  writtenVersions (t1 ++ t2) = writtenVersions t1 ++ writtenVersions t2.
Proof. unfold writtenVersions. apply omap_app. Qed.

(** The version a stored value (or none) stands for. *)
Lemma stamped_version_succ cur id now w (n : Z) :
  from_option Version 0 cur = n -> 0 <= n < maxInt ->
  Version (stampedWrite cur id now w) = n + 1.
Proof.
  intros E R. destruct w, cur as [e|]; simpl in *; subst;
    solve [apply int_add_succ; unfold minInt, intSize in *; lia | reflexivity].
Qed.

Section SuccessiveWrites.
Context {S : Type} `{ReliableStorage S}.

Lemma writeAll_versions (key : string) (ws : list (Z * option (list byte))) :
  forall (d : Database S) (n : Z),
    from_option Version 0 (fst (fst (Storage_Get key (storage d)))) = n ->
    0 <= n -> n + Z.of_nat (length ws) <= maxInt ->
    writtenVersions (calls (writeAll key ws d)) =
      seqZ (n + 1) (Z.of_nat (length ws)).
Proof.
  induction ws as [|[now w] rest IH]; intros d n En Pn Bn.
  - reflexivity.
  - destruct (Storage_Get key (storage d)) as [[cur err] s1] eqn:G.
    pose proof (reliable_Get key (storage d)) as RG. rewrite G in RG.
    simpl in RG, En. subst err.
    set (v := stampedWrite cur (nodeID d) now w).
    destruct (Storage_Set key v s1) as [e s2] eqn:W.
    pose proof (reliable_Set key v s1) as RS. rewrite W in RS.
    simpl in RS. subst e.
    pose proof (Get_after_Set _ _ _ _ W) as G2.
    rewrite writeAll_cons, (writeOne_ok d key now w cur s1 None s2 G W).
    fold v. unfold calls at 1, final. simpl snd. simpl fst.
    change (CallGet key :: CallSet key v :: ?t)
      with ([CallGet key; CallSet key v] ++ t).
    rewrite writtenVersions_app.
    change (length ((now, w) :: rest)) with (Datatypes.S (length rest)) in *.
    assert (Ev : Version v = n + 1).
    { apply stamped_version_succ; [assumption|lia]. }
    rewrite (IH (mkDatabase s2 (nodeID d)) (n + 1)).
    + rewrite (seqZ_cons (n + 1)) by lia. simpl. rewrite Ev.
      do 2 f_equal; lia.
    + simpl. rewrite G2. simpl. exact Ev.
    + lia.
    + lia.
Qed.

End SuccessiveWrites.

(** C7 as stated fails where Go's [int] wraps: over a stored version equal
    to the largest [int], a local write stores the smallest [int], not the
    stored version plus one. *)
Lemma version_wraps_at_maxInt :
  let d := memoryDatabase nodeA [("k", lastVersion)] in
  stored "k" d = Some lastVersion /\
  Version lastVersion = 9223372036854775807 /\
  writtenVersions (calls (Database_Set "k" [x05] 9 d)) = [-9223372036854775808] /\
  writtenVersions (calls (Database_Set "k" [x05] 9 d)) <> [Version lastVersion + 1].
Proof. vm_compute. repeat split; discriminate. Qed.

(** C7, amended: a local write ([Set] or [Delete]) whose read succeeds makes
    one [Storage.Set], with version 1 when the read found nothing, and
    otherwise with the stored version plus one in Go's [int]: the successor
    while the stored version is below the largest [int], the smallest [int]
    once it has reached it.  Hence, on a backend whose calls do not fail,
    the successive local writes to a key that holds nothing store the
    versions 1, 2, 3, ..., as long as these fit an [int]. *)
Theorem local_write_versions {S : Type} `{Storage S}
    (d : Database S) (key : string) :
  (forall now w cur s1,
      Storage_Get key (storage d) = ((cur, None), s1) ->
      exists v,
        calls (writeOne key now w d) = [CallGet key; CallSet key v] /\
        match cur with
        | None => Version v = 1
        | Some existing =>
            (minInt <= Version existing < maxInt ->
             Version v = Version existing + 1) /\
            (Version existing = maxInt -> Version v = minInt)
        end) /\
  (ReliableStorage S ->
   forall ws,
      fst (fst (Storage_Get key (storage d))) = None ->
      Z.of_nat (length ws) <= maxInt ->
      writtenVersions (calls (writeAll key ws d)) = seqZ 1 (Z.of_nat (length ws))).
Proof.
  split.
  - intros now w cur s1 G.
    destruct (Storage_Set key (stampedWrite cur (nodeID d) now w) s1)
      as [e s2] eqn:W.
    exists (stampedWrite cur (nodeID d) now w).
    rewrite (writeOne_ok d key now w cur s1 e s2 G W). split; [reflexivity|].
    destruct cur as [existing|], w; simpl; try reflexivity.
    all: split; [apply int_add_succ | intros ->; apply int_add_maxInt].
  - intros R ws G B.
    apply (writeAll_versions key ws d 0); [now rewrite G | lia | lia].
Qed.

Lemma local_write_versions_witness :
  (exists v,
     calls (writeOne "k" 9 (Some [x05])
              (memoryDatabase nodeA [("k", mkValue 3 nodeB 7 false [x01])])) =
       [CallGet "k"; CallSet "k" v] /\
     Version v = 4) /\
  writtenVersions
    (calls (writeAll "k" [(7, Some [x01]); (7, None); (9, Some [x02])]
              (memoryDatabase nodeA []))) = [1; 2; 3].
Proof.
  split.
  - edestruct (proj1 (local_write_versions
                        (memoryDatabase nodeA [("k", mkValue 3 nodeB 7 false [x01])])
                        "k")
                 9 (Some [x05]) (Some (mkValue 3 nodeB 7 false [x01])))
      as (v & Ec & Ev).
    + reflexivity.
    + exists v. split; [exact Ec|]. apply (proj1 Ev).
      unfold minInt, maxInt, intSize. simpl. lia.
  - apply (proj2 (local_write_versions (memoryDatabase nodeA []) "k")
             MemoryStorage_reliable
             [(7, Some [x01]); (7, None); (9, Some [x02])]).
    + reflexivity.
    + vm_compute. discriminate.
Defined.

(** ** Remote deltas against the in-memory backend *)

Lemma ReceiveRemote_memory (delta : Delta) (d : Database MemoryStorage) :
  result (Database_ReceiveRemote delta d) = None /\
  nodeID (final (Database_ReceiveRemote delta d)) = nodeID d /\
  memNodeID (storage (final (Database_ReceiveRemote delta d))) =
    memNodeID (storage d) /\
  forall key,
    stored key (final (Database_ReceiveRemote delta d)) =
      if bool_decide (Key delta = key)
      then resolve (stored key d) (DValue delta)
      else stored key d.
Proof.
  unfold Database_ReceiveRemote, dbMessageLoop.receive. simpl.
  rewrite (handleReceive_ok d delta (stored (Key delta) d) (storage d))
    by apply MemoryStorage_Get.
  unfold stored, resolve.
  destruct (data (storage d) !! Key delta) as [existing|] eqn:L;
    [destruct (existingIsConflictWinner existing (DValue delta)) eqn:W|];
    unfold result, final; simpl; repeat split; intros key;
    case_bool_decide as K; subst;
    rewrite ?lookup_insert_eq, ?lookup_insert_ne by assumption;
    rewrite ?L, ?W; reflexivity.
Qed.

Lemma receiveAll_memory (ds : list Delta) :
  forall d : Database MemoryStorage,
    nodeID (final (receiveAll ds d)) = nodeID d /\
    memNodeID (storage (final (receiveAll ds d))) = memNodeID (storage d) /\
    forall key, stored key (final (receiveAll ds d)) = resolveAll key (stored key d) ds.
Proof.
  induction ds as [|delta rest IH]; intros d.
  - repeat split.
  - replace (final (receiveAll (delta :: rest) d))
      with (final (receiveAll rest (final (Database_ReceiveRemote delta d))))
      by now rewrite (receiveAll_cons delta rest d).
    destruct (ReceiveRemote_memory delta d) as (_ & N1 & N2 & L).
    destruct (IH (final (Database_ReceiveRemote delta d))) as (I1 & I2 & I3).
    rewrite I1, I2, N1, N2. repeat split.
    intros key. rewrite I3, L. reflexivity.
Qed.

Lemma memoryDatabase_eq (d1 d2 : Database MemoryStorage) :
  nodeID d1 = nodeID d2 ->
  memNodeID (storage d1) = memNodeID (storage d2) ->
  (forall key, stored key d1 = stored key d2) ->
  d1 = d2.
Proof.
  destruct d1 as [[m1 i1] n1], d2 as [[m2 i2] n2]. unfold stored. simpl.
  intros -> -> L. f_equal. f_equal. now apply map_eq.
Qed.

(** ** What a run of the resolver settles on *)

Section Convergence.
Variable key : string.
Variable cur : option Value.

(** The outcome is the starting value or one of the deltas for [key]. *)
Lemma resolveAll_origin (ds : list Delta) :
  resolveAll key cur ds = cur \/
  exists delta, delta ∈ ds /\ Key delta = key /\
                resolveAll key cur ds = Some (DValue delta).
Proof.
  induction ds as [|delta ds IH] using rev_ind; [now left|].
  unfold resolveAll in *. rewrite foldl_app. simpl.
  case_bool_decide as K.
  - unfold resolve.
    destruct (foldl _ cur ds) as [x|] eqn:F.
    + destruct (existingIsConflictWinner x (DValue delta)).
      * right. exists delta. rewrite elem_of_app, list_elem_of_singleton. repeat split; auto.
      * destruct IH as [IH|(d' & I & K' & E)]; [now left|].
        right. exists d'. rewrite elem_of_app. repeat split; auto.
    + right. exists delta. rewrite elem_of_app, list_elem_of_singleton. repeat split; auto.
  - destruct IH as [IH|(d' & I & K' & E)]; [now left|].
    right. exists d'. rewrite elem_of_app. repeat split; auto.
Qed.

(** The outcome is where the starting value was, or the starting value
    is a conflict winner over it. *)
Lemma resolveAll_descends (ds : list Delta) :
  resolveAll key cur ds = cur \/ cur = None \/
  exists existing x,
    cur = Some existing /\ resolveAll key cur ds = Some x /\
    existingIsConflictWinner existing x = true.
Proof.
  induction ds as [|delta ds IH] using rev_ind; [now left|].
  unfold resolveAll in *. rewrite foldl_app. simpl.
  case_bool_decide as K; [|exact IH].
  unfold resolve.
  destruct (foldl _ cur ds) as [x|] eqn:F.
  - destruct (existingIsConflictWinner x (DValue delta)) eqn:W; [|exact IH].
    destruct IH as [IH|[IH|(e & x' & Ec & Ex & We)]].
    + right. right. exists x, (DValue delta). auto.
    + now right; left.
    + right. right. exists e, (DValue delta). injection Ex as <-.
      repeat split; [assumption|]. eapply winner_trans; eassumption.
  - destruct IH as [IH|[IH|(e & x' & Ec & Ex & We)]].
    + right. left. congruence.
    + now right; left.
    + discriminate.
Qed.

(** The outcome is a conflict winner over none of the deltas for [key]. *)
Lemma resolveAll_below (ds : list Delta) (delta : Delta) :
  delta ∈ ds -> Key delta = key ->
  exists x, resolveAll key cur ds = Some x /\
            existingIsConflictWinner x (DValue delta) = false.
Proof.
  induction ds as [|last ds IH] using rev_ind; [now intros ?%elem_of_nil|].
  unfold resolveAll in *. rewrite foldl_app. simpl.
  intros [I| ->%list_elem_of_singleton]%elem_of_app K.
  - destruct (IH I K) as (x & -> & W).
    case_bool_decide as K'; [|eauto]. simpl.
    destruct (existingIsConflictWinner x (DValue last)) eqn:W'; [|eauto].
    eexists. split; [reflexivity|].
    destruct (existingIsConflictWinner (DValue last) (DValue delta)) eqn:W'';
      [|reflexivity].
    rewrite (winner_trans _ _ _ W' W'') in W. discriminate.
  - rewrite bool_decide_eq_true_2 by assumption.
    unfold resolve. destruct (foldl _ cur ds) as [x|].
    + destruct (existingIsConflictWinner x (DValue last)) eqn:W'; eauto.
      eexists. split; [reflexivity|]. apply winner_irrefl.
    + eexists. split; [reflexivity|]. apply winner_irrefl.
Qed.

(** A run that ends where it started forces every run over the same
    deltas to end there. *)
Lemma resolveAll_stays (ds1 ds2 : list Delta) :
  (forall delta, delta ∈ ds2 -> delta ∈ ds1) ->
  resolveAll key cur ds1 = cur ->
  resolveAll key cur ds2 = cur.
Proof.
  intros Sub E1.
  destruct (resolveAll_origin ds2) as [E2|(d2 & I2 & K2 & E2)]; [assumption|].
  destruct (resolveAll_below ds1 d2 (Sub _ I2) K2) as (x & Ex & W).
  rewrite E1 in Ex.
  destruct (resolveAll_descends ds2) as [D|[D|(e & x2 & Ec & Ex2 & We)]].
  - assumption.
  - congruence.
  - rewrite E2 in Ex2. injection Ex2 as <-. congruence.
Qed.

Lemma resolveAll_converges (ds1 ds2 : list Delta) :
  (forall delta, delta ∈ ds1 <-> delta ∈ ds2) ->
  (forall a b, a ∈ ds1 -> b ∈ ds1 -> sameStamp a b -> a = b) ->
  resolveAll key cur ds1 = resolveAll key cur ds2.
Proof.
  intros Same Distinct.
  destruct (resolveAll_origin ds1) as [E1|(d1 & I1 & K1 & E1)].
  { rewrite E1. symmetry. apply (resolveAll_stays ds1 ds2); [|assumption].
    intros delta. apply Same. }
  destruct (resolveAll_origin ds2) as [E2|(d2 & I2 & K2 & E2)].
  { rewrite E2. apply (resolveAll_stays ds2 ds1); [|assumption].
    intros delta. apply Same. }
  destruct (resolveAll_below ds1 d2 (proj2 (Same _) I2) K2) as (x1 & Ex1 & W1).
  destruct (resolveAll_below ds2 d1 (proj1 (Same _) I1) K1) as (x2 & Ex2 & W2).
  rewrite E1 in Ex1. rewrite E2 in Ex2.
  injection Ex1 as <-. injection Ex2 as <-.
  destruct (winner_tie _ _ W1 W2) as [At By].
  rewrite E1, E2. f_equal. f_equal. apply Distinct.
  - assumption.
  - now apply Same.
  - repeat split; congruence.
Qed.

End Convergence.

(** ** Convergence of replicas *)

(** C4 as stated fails for deltas the resolver cannot tell apart: two
    writes by one node within one second carry the same timestamp and
    identity, and whichever of them a replica receives first is the one it
    keeps. *)
Lemma receive_order_matters_on_equal_stamps :
  (forall delta, delta ∈ [firstWrite; secondWrite] <->
                 delta ∈ [secondWrite; firstWrite]) /\
  stored "k" (final (receiveAll [firstWrite; secondWrite] (memoryDatabase nodeB [])))
    = Some (DValue firstWrite) /\
  stored "k" (final (receiveAll [secondWrite; firstWrite] (memoryDatabase nodeB [])))
    = Some (DValue secondWrite) /\
  stored "k" (final (receiveAll [firstWrite; secondWrite] (memoryDatabase nodeB [])))
    <> stored "k" (final (receiveAll [secondWrite; firstWrite] (memoryDatabase nodeB []))).
Proof.
  split; [intros delta; rewrite !elem_of_cons, !elem_of_nil; tauto|].
  split; [reflexivity|]. split; [reflexivity|]. discriminate.
Qed.

(** C4, amended: replicas on the in-memory backend that start from the same
    state and receive the same deltas, in any order and any number of
    times each, end in the same state (so with the same value for every
    key), provided that deltas with the same key, timestamp and writer are
    the same delta; and a delta received a second time changes nothing. *)
Theorem receive_order_irrelevant (d : Database MemoryStorage)
    (ds1 ds2 : list Delta) :
  (forall delta, delta ∈ ds1 <-> delta ∈ ds2) ->
  (forall a b, a ∈ ds1 -> b ∈ ds1 -> sameStamp a b -> a = b) ->
  final (receiveAll ds1 d) = final (receiveAll ds2 d) /\
  (forall key, stored key (final (receiveAll ds1 d)) =
               stored key (final (receiveAll ds2 d))) /\
  (forall delta,
      final (Database_ReceiveRemote delta
               (final (Database_ReceiveRemote delta (final (receiveAll ds1 d))))) =
      final (Database_ReceiveRemote delta (final (receiveAll ds1 d)))).
Proof.
  intros Same Distinct.
  destruct (receiveAll_memory ds1 d) as (N1 & M1 & L1).
  destruct (receiveAll_memory ds2 d) as (N2 & M2 & L2).
  assert (L : forall key, stored key (final (receiveAll ds1 d)) =
                          stored key (final (receiveAll ds2 d))).
  { intros key. rewrite L1, L2. now apply resolveAll_converges. }
  split; [|split].
  - apply memoryDatabase_eq; [congruence|congruence|exact L].
  - exact L.
  - intros delta. set (d1 := final (receiveAll ds1 d)).
    destruct (ReceiveRemote_memory delta d1) as (_ & A1 & B1 & C1).
    destruct (ReceiveRemote_memory delta (final (Database_ReceiveRemote delta d1)))
      as (_ & A2 & B2 & C2).
    apply memoryDatabase_eq; [assumption|assumption|].
    intros key. rewrite C2, C1. case_bool_decide as K; [|reflexivity].
    unfold resolve. destruct (stored key d1) as [existing|].
    + destruct (existingIsConflictWinner existing (DValue delta)) eqn:W.
      * now rewrite winner_irrefl.
      * now rewrite W.
    + now rewrite winner_irrefl.
Qed.

Lemma receive_order_irrelevant_witness :
  let a := mkDelta "k" olderByA in
  let b := mkDelta "k" newerByB in
  let d := memoryDatabase nodeA [] in
  final (receiveAll [a; b; a] d) = final (receiveAll [b; a] d) /\
  (forall key, stored key (final (receiveAll [a; b; a] d)) =
               stored key (final (receiveAll [b; a] d))) /\
  (forall delta,
      final (Database_ReceiveRemote delta
               (final (Database_ReceiveRemote delta (final (receiveAll [a; b; a] d))))) =
      final (Database_ReceiveRemote delta (final (receiveAll [a; b; a] d)))).
Proof.
  intros a b d. apply (receive_order_irrelevant d [a; b; a] [b; a]).
  - intros delta. rewrite !elem_of_cons, !elem_of_nil. tauto.
  - intros x y Hx Hy (_ & At & _).
    assert (Ex : x = a \/ x = b).
    { revert Hx. rewrite !elem_of_cons, elem_of_nil. tauto. }
    assert (Ey : y = a \/ y = b).
    { revert Hy. rewrite !elem_of_cons, elem_of_nil. tauto. }
    destruct Ex as [-> | ->], Ey as [-> | ->];
      solve [reflexivity | discriminate At].
Defined.

(** ** The conflict resolver on remote deltas *)

(** C1 (the code does the opposite): a stored value from time 100 and a
    delta for the same key from time 200.  [handleReceive] makes no
    [Storage.Set] and the older value stays; with the roles exchanged it
    overwrites the stored newer value with the older delta. *)
Theorem handleReceive_keeps_older_timestamp :
  Database_ReceiveRemote (mkDelta "k" newerByB) (memoryDatabase nodeA [("k", olderByA)])
    = (None, memoryDatabase nodeA [("k", olderByA)], [CallGet "k"]) /\
  Database_ReceiveRemote (mkDelta "k" olderByA) (memoryDatabase nodeA [("k", newerByB)])
    = (None, memoryDatabase nodeA [("k", olderByA)],
       [CallGet "k"; CallSet "k" olderByA]) /\
  ModifiedAt olderByA < ModifiedAt newerByB.
Proof. repeat split. Qed.

(** C2 (the code does the opposite): two values for one key with the same
    timestamp, written by nodes A and B, where A's identity sorts before
    B's.  Whichever of the two is stored and whichever arrives, the value
    left in store is B's, the one with the larger identity. *)
Theorem handleReceive_keeps_larger_identity :
  Database_ReceiveRemote (mkDelta "k" tiedByB) (memoryDatabase nodeA [("k", tiedByA)])
    = (None, memoryDatabase nodeA [("k", tiedByB)],
       [CallGet "k"; CallSet "k" tiedByB]) /\
  Database_ReceiveRemote (mkDelta "k" tiedByA) (memoryDatabase nodeA [("k", tiedByB)])
    = (None, memoryDatabase nodeA [("k", tiedByB)], [CallGet "k"]) /\
  ModifiedAt tiedByA = ModifiedAt tiedByB /\
  String.ltb (UUID_String (ModifiedBy tiedByA)) (UUID_String (ModifiedBy tiedByB)) = true.
Proof. repeat split. Qed.

(** ** The sequencer loop *)

Section Loop.
Context {S : Type} `{Storage S}.

Lemma turn_Normal (msg : dbMessage) (now : Z) (d : Database S) :
  fst (result (turn msg now d)) = Normal.
Proof.
  unfold turn. rewrite bind_run. unfold ret, result, switch_stmt. simpl.
  now destruct (fst (fst (fst (dispatch msg now d)))).
Qed.

Lemma dbMessageLoop_cons (now : Z) (msg : dbMessage)
    (rest : list (Z * dbMessage)) (d : Database S) :
  dbMessageLoop ((now, msg) :: rest) d =
    (fst (result (dbMessageLoop rest (final (turn msg now d)))),
     snd (result (turn msg now d))
       ++ snd (result (dbMessageLoop rest (final (turn msg now d)))),
     final (dbMessageLoop rest (final (turn msg now d))),
     calls (turn msg now d)
       ++ calls (dbMessageLoop rest (final (turn msg now d)))).
Proof.
  cbn [dbMessageLoop]. rewrite bind_run.
  pose proof (turn_Normal msg now d) as N.
  destruct (result (turn msg now d)) as [c out]. simpl in N. subst c.
  cbn [fst snd]. rewrite bind_run.
  unfold ret, result, final, calls. simpl. now rewrite app_nil_r.
Qed.

Lemma dbMessageLoop_Running (inbox : list (Z * dbMessage)) :
  forall d : Database S, fst (result (dbMessageLoop inbox d)) = Running.
Proof.
  induction inbox as [|[now msg] rest IH]; intros d; [reflexivity|].
  rewrite dbMessageLoop_cons. unfold result at 1. simpl. apply IH.
Qed.

Lemma dbMessageLoop_Close (now : Z) (rest : list (Z * dbMessage))
    (d : Database S) :
  dbMessageLoop ((now, newCloseMessage) :: rest) d = dbMessageLoop rest d.
Proof.
  rewrite dbMessageLoop_cons.
  unfold Database_Close, turn, dispatch, switch_stmt, bind, ret, result, final, calls.
  simpl. now destruct (dbMessageLoop rest d) as [[[st out] d'] t].
Qed.

End Loop.

(** C3 (the code does not do this): the [break] of the [default] clause
    leaves the [switch], not the [for].  A Close request is taken from the
    inbox like any other and the loop stays in [Running], whatever arrives:
    requests posted after the Close are served. *)
Theorem Close_does_not_stop_the_loop :
  (forall (S : Type) (H : Storage S) (d : Database S) now rest,
      dbMessageLoop ((now, Database_Close) :: rest) d = dbMessageLoop rest d /\
      fst (result (dbMessageLoop ((now, Database_Close) :: rest) d)) = Running) /\
  result (dbMessageLoop
            [(1, Database_Close);
             (2, newSetMessage {| set_key := "k"; set_value := [x05] |});
             (3, newGetMessage {| get_key := "k" |})]
            (memoryDatabase nodeA []))
    = (Running,
       [ReplyError None; ReplyGet (mkTryGet (mkGetResult true [x05]) None)]).
Proof.
  split; [|reflexivity].
  intros S H d now rest. split.
  - apply dbMessageLoop_Close.
  - apply dbMessageLoop_Running.
Qed.

(** * Further properties of the code *)

(** ** Remote deltas: error and first-write behaviour (core.go, 97-115) *)

(** X1: when the Storage read that [ReceiveRemote] starts with fails, the
    caller gets that error, no [Storage.Set] is made, and the backend is in
    the state the failed read left. *)
Theorem ReceiveRemote_read_error {S : Type} `{Storage S}
    (d : Database S) (delta : Delta) (cur : option Value) (e : error) (s1 : S) :
  Storage_Get (Key delta) (storage d) = ((cur, Some e), s1) ->
  Database_ReceiveRemote delta d =
    (Some e, mkDatabase s1 (nodeID d), [CallGet (Key delta)]).
Proof. unfold_core. simpl. intros ->. reflexivity. Qed.

Lemma ReceiveRemote_read_error_witness :
  let d := failingDatabase nodeA [("k", olderByA)] ["k"] in
  Database_ReceiveRemote (mkDelta "k" newerByB) d =
    (Some "read failed", d, [CallGet "k"]).
Proof.
  intros d.
  exact (ReceiveRemote_read_error d (mkDelta "k" newerByB) None "read failed"
           (storage d) eq_refl).
Defined.

(** X2: a delta for a key the backend holds nothing for is always written:
    [ReceiveRemote] makes the read and one [Storage.Set] of the delta's
    value, and returns whatever that [Set] returned.  If it returned no
    error, and the backend returns from [Get] what [Set] stored, the next
    [Get] of the key answers with the delta's content, or with
    [hasValue = false] if the delta is a tombstone. *)
Theorem ReceiveRemote_on_absent_key {S : Type} `{Storage S}
    (d : Database S) (delta : Delta) (s1 : S) :
  Storage_Get (Key delta) (storage d) = ((None, None), s1) ->
  calls (Database_ReceiveRemote delta d) =
    [CallGet (Key delta); CallSet (Key delta) (DValue delta)] /\
  result (Database_ReceiveRemote delta d) =
    fst (Storage_Set (Key delta) (DValue delta) s1) /\
  (StorageContract S ->
   result (Database_ReceiveRemote delta d) = None ->
   result (Database_Get (Key delta) (final (Database_ReceiveRemote delta d))) =
     (visible (DValue delta), None)).
Proof.
  intros G. unfold Database_ReceiveRemote, dbMessageLoop.receive. simpl.
  rewrite (handleReceive_ok d delta None s1 G).
  unfold calls, result, final. simpl.
  split; [reflexivity|]. split; [reflexivity|].
  intros C E.
  destruct (Storage_Set (Key delta) (DValue delta) s1) as [e s2] eqn:W.
  simpl in E. subst e. simpl.
  pose proof (Get_after_Set _ _ _ _ W) as G2.
  fold (result (Database_Get (Key delta) (mkDatabase s2 (nodeID d)))).
  rewrite Database_Get_run. simpl.
  destruct (Storage_Get (Key delta) s2) as [r s3]. simpl in G2. subst r.
  unfold result, visible. simpl. now destruct (Deleted (DValue delta)).
Qed.

Lemma ReceiveRemote_on_absent_key_witness :
  let d := memoryDatabase nodeA [] in
  let delta := mkDelta "k" newerByB in
  calls (Database_ReceiveRemote delta d) = [CallGet "k"; CallSet "k" newerByB] /\
  result (Database_ReceiveRemote delta d) = None /\
  result (Database_Get "k" (final (Database_ReceiveRemote delta d))) =
    (mkGetResult true [x02], None).
Proof.
  intros d delta.
  destruct (ReceiveRemote_on_absent_key d delta (storage d)) as (C & R & G);
    [reflexivity|].
  split; [exact C|]. split; [exact R|].
  exact (G MemoryStorage_contract eq_refl).
Defined.

(** ** Local writes: a failing write (core.go, 237-244 and 262-269) *)

(** X3: when the read inside [Set] or [Delete] succeeds and the backend
    then refuses the write with [e], whatever the value, the caller gets
    [e]. *)
Theorem write_error_is_returned {S : Type} `{Storage S}
    (d : Database S) (key : string) (bytes : list byte) (now : Z)
    (cur : option Value) (e : error) (s1 : S) :
  Storage_Get key (storage d) = ((cur, None), s1) ->
  (forall v, fst (Storage_Set key v s1) = Some e) ->
  result (Database_Set key bytes now d) = Some e /\
  result (Database_Delete key now d) = Some e.
Proof.
  intros G W. split.
  - destruct (Storage_Set key (stamped cur (nodeID d) now false bytes) s1)
      as [e2 s2] eqn:E2.
    rewrite (Database_Set_ok d key bytes now cur s1 e2 s2 G E2).
    unfold result. simpl. rewrite <- (W (stamped cur (nodeID d) now false bytes)).
    now rewrite E2.
  - destruct (Storage_Set key (stamped cur (nodeID d) now true []) s1)
      as [e2 s2] eqn:E2.
    rewrite (Database_Delete_ok d key now cur s1 e2 s2 G E2).
    unfold result. simpl. rewrite <- (W (stamped cur (nodeID d) now true [])).
    now rewrite E2.
Qed.

Lemma write_error_is_returned_witness :
  let d := readOnlyDatabase nodeA [("k", olderByA)] in
  result (Database_Set "k" [x05] 9 d) = Some "read-only" /\
  result (Database_Delete "k" 9 d) = Some "read-only".
Proof.
  intros d.
  apply (write_error_is_returned d "k" [x05] 9 (Some olderByA) "read-only"
           (storage d)).
  - reflexivity.
  - intros v. reflexivity.
Defined.

(** ** Reads: what a [Get] can answer (core.go, 246-260) *)

(** X4: a [Get] answers in one of two ways: with [hasValue = false] and
    no bytes (possibly with an error), or with [hasValue = true] and no
    error.  It never returns a value together with an error. *)
Theorem Get_value_or_error {S : Type} `{Storage S}
    (d : Database S) (key : string) :
  fst (result (Database_Get key d)) = mkGetResult false [] \/
  (exists bytes, result (Database_Get key d) = (mkGetResult true bytes, None)).
Proof.
  rewrite Database_Get_run.
  destruct (Storage_Get key (storage d)) as [[cur [e|]] s1]; unfold result; simpl.
  - now left.
  - destruct cur as [v|]; [destruct (Deleted v)|]; eauto.
Qed.

(** ** The in-memory backend (memory.go, 13-31) *)

(** X5: in [MemoryStorage], [Set] never fails; the [Get] of the key that
    follows returns the value just set, and the [Get] of any other key
    returns what it returned before. *)
Theorem MemoryStorage_Set_then_Get (m : MemoryStorage) (key : string) (v : Value) :
  fst (Storage_Set key v m) = None /\
  fst (Storage_Get key (snd (Storage_Set key v m))) = (Some v, None) /\
  (forall key', key' <> key ->
     fst (Storage_Get key' (snd (Storage_Set key v m))) = fst (Storage_Get key' m)).
Proof.
  split; [reflexivity|]. split.
  - rewrite MemoryStorage_Get. simpl. now rewrite lookup_insert_eq.
  - intros key' N. rewrite !MemoryStorage_Get. simpl.
    now rewrite lookup_insert_ne by congruence.
Qed.

Lemma MemoryStorage_Set_then_Get_witness :
  let m := mkMemoryStorage (list_to_map [("j", olderByA)]) nodeA in
  fst (Storage_Get "k" (snd (Storage_Set "k" newerByB m))) = (Some newerByB, None) /\
  fst (Storage_Get "j" (snd (Storage_Set "k" newerByB m))) = (Some olderByA, None).
Proof.
  intros m.
  destruct (MemoryStorage_Set_then_Get m "k" newerByB) as (_ & G & F).
  split; [exact G|]. rewrite (F "j"); [reflexivity|discriminate].
Defined.

(** X6: in [MemoryStorage], [Delete] never fails; afterwards the key has
    no value, every other key reads as before, and deleting a key that has
    no value leaves the storage exactly as it was. *)
Theorem MemoryStorage_Delete_then_Get (m : MemoryStorage) (key : string) :
  fst (Storage_Delete key m) = None /\
  fst (Storage_Get key (snd (Storage_Delete key m))) = (None, None) /\
  (forall key', key' <> key ->
     fst (Storage_Get key' (snd (Storage_Delete key m))) = fst (Storage_Get key' m)) /\
  (fst (Storage_Get key m) = (None, None) -> snd (Storage_Delete key m) = m).
Proof.
  split; [reflexivity|]. split; [|split].
  - rewrite MemoryStorage_Get. simpl. now rewrite lookup_delete_eq.
  - intros key' N. rewrite !MemoryStorage_Get. simpl.
    now rewrite lookup_delete_ne by congruence.
  - rewrite MemoryStorage_Get. intros E. injection E as E. simpl.
    rewrite delete_id by assumption. now destruct m.
Qed.

Lemma MemoryStorage_Delete_then_Get_witness :
  let m := mkMemoryStorage (list_to_map [("j", olderByA)]) nodeA in
  fst (Storage_Get "j" (snd (Storage_Delete "k" m))) = (Some olderByA, None) /\
  snd (Storage_Delete "k" m) = m.
Proof.
  intros m.
  destruct (MemoryStorage_Delete_then_Get m "k") as (_ & _ & F & I).
  split.
  - rewrite (F "j"); [reflexivity|discriminate].
  - apply I. reflexivity.
Defined.

(** X7: how writes to [MemoryStorage] compose: of two [Set]s of one key
    the later one decides; a [Delete] undoes a [Set] of the same key and a
    [Set] overrides a [Delete]; setting a key to the value it already has
    changes nothing; writes of different keys can be exchanged. *)
Theorem MemoryStorage_writes_compose (m : MemoryStorage) (key : string)
    (v v' : Value) :
  snd (Storage_Set key v (snd (Storage_Set key v' m))) = snd (Storage_Set key v m) /\
  snd (Storage_Delete key (snd (Storage_Set key v m))) = snd (Storage_Delete key m) /\
  snd (Storage_Set key v (snd (Storage_Delete key m))) = snd (Storage_Set key v m) /\
  (fst (Storage_Get key m) = (Some v, None) -> snd (Storage_Set key v m) = m) /\
  (forall key', key' <> key ->
     snd (Storage_Set key v (snd (Storage_Set key' v' m))) =
     snd (Storage_Set key' v' (snd (Storage_Set key v m))) /\
     snd (Storage_Set key v (snd (Storage_Delete key' m))) =
     snd (Storage_Delete key' (snd (Storage_Set key v m)))).
Proof.
  simpl. repeat split.
  - now rewrite insert_insert_eq.
  - now rewrite delete_insert_eq.
  - now rewrite insert_delete_eq.
  - destruct (data m !! key) as [x|] eqn:L; simpl; intros E;
      [injection E as ->|discriminate].
    rewrite insert_id by assumption. now destruct m.
  - now rewrite insert_insert_ne by congruence.
  - now rewrite delete_insert_ne by congruence.
Qed.

Lemma MemoryStorage_writes_compose_witness :
  let m := mkMemoryStorage (list_to_map [("k", olderByA)]) nodeA in
  snd (Storage_Set "k" olderByA m) = m /\
  snd (Storage_Set "k" tiedByB (snd (Storage_Set "j" newerByB m))) =
  snd (Storage_Set "j" newerByB (snd (Storage_Set "k" tiedByB m))).
Proof.
  intros m.
  destruct (MemoryStorage_writes_compose m "k" olderByA newerByB)
    as (_ & _ & _ & I & _).
  destruct (MemoryStorage_writes_compose m "k" tiedByB newerByB)
    as (_ & _ & _ & _ & C).
  split.
  - apply I. reflexivity.
  - apply (C "j"). discriminate.
Defined.

(** ** The sequencer loop as a whole (core.go, 232-287) *)

Section LoopProperties.
Context {S : Type} `{Storage S}.
Implicit Types (d : Database S) (msg : dbMessage) (inbox : list (Z * dbMessage)).

Lemma turn_run msg now d :
  final (turn msg now d) = final (dispatch msg now d) /\
  calls (turn msg now d) = calls (dispatch msg now d) /\
  snd (result (turn msg now d)) = snd (result (dispatch msg now d)).
Proof.
  unfold turn. rewrite bind_run. unfold ret, result, final, calls, switch_stmt.
  simpl. rewrite app_nil_r.
  now destruct (fst (fst (fst (dispatch msg now d)))).
Qed.

Lemma dispatch_run msg now d :
  dispatch msg now d =
    match msg with
    | newReceiveMessage m =>
        ((Normal, [ReplyError (result (dbMessageLoop.receive m d))]),
         final (dbMessageLoop.receive m d), calls (dbMessageLoop.receive m d))
    | newSetMessage m =>
        ((Normal, [ReplyError (result (dbMessageLoop.set m now d))]),
         final (dbMessageLoop.set m now d), calls (dbMessageLoop.set m now d))
    | newGetMessage m =>
        ((Normal, [ReplyGet (result (dbMessageLoop.get m d))]),
         final (dbMessageLoop.get m d), calls (dbMessageLoop.get m d))
    | newDeleteMessage m =>
        ((Normal, [ReplyError (result (dbMessageLoop.delete m now d))]),
         final (dbMessageLoop.delete m now d), calls (dbMessageLoop.delete m now d))
    | newCloseMessage => ((Break, []), d, [])
    end.
Proof.
  destruct msg; cbn [dispatch]; [rewrite bind_run ..|reflexivity];
    unfold ret, result, final, calls; simpl; now rewrite app_nil_r.
Qed.

(** The Storage calls of one handler: the read of its key, then at most
    one write of that key. *)
Lemma handler_calls msg now d key :
  keyOf msg = Some key ->
  calls (dispatch msg now d) = [CallGet key] \/
  exists v, calls (dispatch msg now d) = [CallGet key; CallSet key v].
Proof.
  rewrite dispatch_run.
  destruct msg as [[delta]|[k bytes]|[k]|[k]|]; simpl; intros E;
    try discriminate; injection E as <-.
  - unfold dbMessageLoop.receive. simpl.
    destruct (Storage_Get (Key delta) (storage d)) as [[cur [e|]] s1] eqn:G.
    + left. unfold_core. simpl. now rewrite G.
    + rewrite (handleReceive_ok d delta cur s1 G).
      destruct (match cur with None => true | Some _ => _ end); eauto.
  - change (dbMessageLoop.set {| set_key := k; set_value := bytes |} now d)
      with (Database_Set k bytes now d).
    destruct (Storage_Get k (storage d)) as [[cur [e|]] s1] eqn:G.
    + left. now rewrite (Database_Set_error d k bytes now cur e s1 G).
    + right. eexists.
      destruct (Storage_Set k (stamped cur (nodeID d) now false bytes) s1)
        as [e2 s2] eqn:W.
      now rewrite (Database_Set_ok d k bytes now cur s1 e2 s2 G W).
  - left. unfold_core. simpl.
    destruct (Storage_Get k (storage d)) as [[cur [e|]] s1]; simpl;
      [reflexivity|].
    destruct cur as [v|]; simpl; [destruct (Deleted v)|]; reflexivity.
  - change (dbMessageLoop.delete {| delete_key := k |} now d)
      with (Database_Delete k now d).
    destruct (Storage_Get k (storage d)) as [[cur [e|]] s1] eqn:G.
    + left. now rewrite (Database_Delete_error d k now cur e s1 G).
    + right. eexists.
      destruct (Storage_Set k (stamped cur (nodeID d) now true []) s1)
        as [e2 s2] eqn:W.
      now rewrite (Database_Delete_ok d k now cur s1 e2 s2 G W).
Qed.

Lemma storage_calls_keep_nodeID {A : Type} (m : M S A) :
  (forall d, nodeID (final (m d)) = nodeID d) ->
  forall {B : Type} (f : A -> M S B),
    (forall a d, nodeID (final (f a d)) = nodeID d) ->
    forall d, nodeID (final (bind m f d)) = nodeID d.
Proof.
  intros Hm B f Hf d. rewrite bind_run. unfold final at 1. simpl.
  now rewrite Hf, Hm.
Qed.

Lemma dispatch_keeps_nodeID msg now d :
  nodeID (final (dispatch msg now d)) = nodeID d.
Proof.
  assert (G : forall key d, nodeID (final (storageGet key d)) = nodeID d).
  { intros key d'. unfold storageGet, final.
    now destruct (Storage_Get key (storage d')). }
  assert (W : forall key v d, nodeID (final (storageSet key v d)) = nodeID d).
  { intros key v d'. unfold storageSet, final.
    now destruct (Storage_Set key v (storage d')). }
  assert (N : forall key bytes deleted now d,
             nodeID (final (newValue key bytes deleted now d)) = nodeID d).
  { intros key bytes deleted now' d'. unfold newValue.
    apply storage_calls_keep_nodeID; [apply G|].
    intros [cur [e|]] d''; reflexivity. }
  rewrite dispatch_run. destruct msg as [[delta]|[k bytes]|[k]|[k]|]; simpl.
  - unfold dbMessageLoop.receive, handleReceive. simpl.
    apply storage_calls_keep_nodeID; [apply G|].
    intros [cur [e|]] d'; simpl; [reflexivity|].
    destruct (match cur with None => true | Some _ => _ end);
      [apply W|reflexivity].
  - unfold dbMessageLoop.set. simpl.
    apply storage_calls_keep_nodeID; [apply N|].
    intros [[v|] [e|]] d'; try reflexivity. apply W.
  - unfold dbMessageLoop.get. simpl.
    apply storage_calls_keep_nodeID; [apply G|].
    intros [[v|] [e|]] d'; simpl; try reflexivity.
    now destruct (Deleted v).
  - unfold dbMessageLoop.delete. simpl.
    apply storage_calls_keep_nodeID; [apply N|].
    intros [[v|] [e|]] d'; try reflexivity. apply W.
  - reflexivity.
Qed.

End LoopProperties.

(** X8: serving an inbox in two batches is serving it in one: the second
    batch runs from the state the first one left, the replies and the
    Storage calls of the two follow each other in order. *)
Theorem dbMessageLoop_app {S : Type} `{Storage S}
    (inbox1 inbox2 : list (Z * dbMessage)) (d : Database S) :
  dbMessageLoop (inbox1 ++ inbox2) d =
    (fst (result (dbMessageLoop inbox2 (final (dbMessageLoop inbox1 d)))),
     snd (result (dbMessageLoop inbox1 d))
       ++ snd (result (dbMessageLoop inbox2 (final (dbMessageLoop inbox1 d)))),
     final (dbMessageLoop inbox2 (final (dbMessageLoop inbox1 d))),
     calls (dbMessageLoop inbox1 d)
       ++ calls (dbMessageLoop inbox2 (final (dbMessageLoop inbox1 d)))).
Proof.
  revert d. induction inbox1 as [|[now msg] rest IH]; intros d.
  - simpl. unfold ret, result, final, calls. simpl.
    now destruct (dbMessageLoop inbox2 d) as [[[st out] d'] t].
  - rewrite <- app_comm_cons, !dbMessageLoop_cons, IH.
    unfold result, final, calls. simpl. now rewrite !app_assoc.
Qed.

(** X9: every request other than Close gets exactly one reply, of its own
    kind (a [TryGet] for a Get, an error value for the others), and the
    replies come in the order of the requests; a Close gets none. *)
Theorem one_reply_per_request {S : Type} `{Storage S}
    (inbox : list (Z * dbMessage)) (d : Database S) :
  Forall2 answers
    (List.filter (fun p => awaitsReply (snd p)) inbox)
    (snd (result (dbMessageLoop inbox d))) /\
  length (snd (result (dbMessageLoop inbox d))) =
    length (List.filter (fun p => awaitsReply (snd p)) inbox).
Proof.
  assert (F : Forall2 answers
                (List.filter (fun p => awaitsReply (snd p)) inbox)
                (snd (result (dbMessageLoop inbox d)))).
  { revert d. induction inbox as [|[now msg] rest IH]; intros d.
    - constructor.
    - rewrite dbMessageLoop_cons. unfold result at 1. cbn [fst snd].
      destruct (turn_run msg now d) as (_ & _ & ->).
      rewrite dispatch_run.
      destruct msg; simpl; try (constructor; [exact I|]); apply IH. }
  split; [exact F|]. symmetry. exact (Forall2_length _ _ _ F).
Qed.

(** X10: the Storage calls of the loop are those of its requests: a
    request begins with the read of its key and makes at most one write,
    of that same key; a Get only reads; a Close calls nothing.  So every
    call the loop makes is on the key of a request in the inbox. *)
Theorem loop_touches_requested_keys_only {S : Type} `{Storage S} :
  (forall msg now (d : Database S),
      match keyOf msg with
      | None => calls (turn msg now d) = []
      | Some key =>
          calls (turn msg now d) = [CallGet key] \/
          exists v, calls (turn msg now d) = [CallGet key; CallSet key v]
      end) /\
  (forall m now (d : Database S),
      calls (turn (newGetMessage m) now d) = [CallGet (get_key m)]) /\
  (forall inbox (d : Database S) c,
      c ∈ calls (dbMessageLoop inbox d) ->
      exists p, p ∈ inbox /\ keyOf (snd p) = Some (callKey c)).
Proof.
  assert (T : forall msg now (d : Database S),
             match keyOf msg with
             | None => calls (turn msg now d) = []
             | Some key =>
                 calls (turn msg now d) = [CallGet key] \/
                 exists v, calls (turn msg now d) = [CallGet key; CallSet key v]
             end).
  { intros msg now d. destruct (turn_run msg now d) as (_ & -> & _).
    destruct (keyOf msg) as [key|] eqn:K.
    - now apply handler_calls.
    - destruct msg; try discriminate. now rewrite dispatch_run. }
  split; [exact T|]. split.
  - intros [k] now d. destruct (turn_run (newGetMessage {| get_key := k |}) now d)
      as (_ & -> & _).
    rewrite dispatch_run. unfold_core. simpl.
    destruct (Storage_Get k (storage d)) as [[cur [e|]] s1]; simpl;
      [reflexivity|].
    destruct cur as [v|]; simpl; [destruct (Deleted v)|]; reflexivity.
  - intros inbox. induction inbox as [|[now msg] rest IH]; intros d c.
    + intros I. now apply elem_of_nil in I.
    + rewrite dbMessageLoop_cons. unfold calls at 1. cbn [snd].
      intros [I|I]%elem_of_app.
      * exists (now, msg). split; [apply elem_of_cons; now left|]. simpl.
        specialize (T msg now d). destruct (keyOf msg) as [key|].
        -- destruct T as [T|[v T]]; rewrite T in I;
             repeat (apply elem_of_cons in I as [->|I]); try reflexivity;
             now apply elem_of_nil in I.
        -- rewrite T in I. now apply elem_of_nil in I.
      * destruct (IH _ _ I) as (p & Ip & Kp).
        exists p. split; [apply elem_of_cons; now right|exact Kp].
Qed.

Lemma loop_touches_requested_keys_only_witness :
  let inbox := [(1, newSetMessage {| set_key := "a"; set_value := [x05] |});
                (2, Database_Close);
                (3, newGetMessage {| get_key := "b" |})] in
  exists p, p ∈ inbox /\ keyOf (snd p) = Some "a".
Proof.
  intros inbox.
  apply (proj2 (proj2 loop_touches_requested_keys_only) inbox
           (memoryDatabase nodeA []) (CallSet "a" (mkValue 1 nodeA 1 false [x05]))).
  replace (calls (dbMessageLoop inbox (memoryDatabase nodeA [])))
    with [CallGet "a"; CallSet "a" (mkValue 1 nodeA 1 false [x05]); CallGet "b"]
    by reflexivity.
  rewrite !elem_of_cons. right. left. reflexivity.
Defined.

(** X11: the node identity a database was created with is the one it has
    after any inbox, whatever the backend does. *)
Theorem nodeID_is_constant {S : Type} `{Storage S}
    (inbox : list (Z * dbMessage)) (d : Database S) :
  nodeID (final (dbMessageLoop inbox d)) = nodeID d.
Proof.
  revert d. induction inbox as [|[now msg] rest IH]; intros d; [reflexivity|].
  rewrite dbMessageLoop_cons. unfold final at 1. cbn [fst snd].
  rewrite IH. destruct (turn_run msg now d) as (-> & _ & _).
  apply dispatch_keeps_nodeID.
Qed.

(** ** The database on the in-memory backend *)

Lemma writeOne_memory (d : Database MemoryStorage) (key : string) (now : Z)
    (w : option (list byte)) :
  writeOne key now w d =
    (None,
     mkDatabase
       (mkMemoryStorage
          (<[key := stampedWrite (stored key d) (nodeID d) now w]> (data (storage d)))
          (memNodeID (storage d)))
       (nodeID d),
     [CallGet key; CallSet key (stampedWrite (stored key d) (nodeID d) now w)]).
Proof.
  apply (writeOne_ok d key now w (stored key d) (storage d)).
  - apply MemoryStorage_Get.
  - reflexivity.
Qed.

Lemma get_memory (d : Database MemoryStorage) (m : dbMessageGet) :
  final (dbMessageLoop.get m d) = d.
Proof.
  destruct m as [k]. unfold_core. simpl.
  destruct (data (storage d) !! k) as [v|]; simpl;
    [destruct (Deleted v)|]; now destruct d.
Qed.

Lemma get_memory_result (d : Database MemoryStorage) (m : dbMessageGet) :
  result (dbMessageLoop.get m d) =
    match stored (get_key m) d with
    | Some v => mkTryGet (visible v) None
    | None => mkTryGet (mkGetResult false []) None
    end.
Proof.
  destruct m as [k]. unfold_core. unfold stored, visible. simpl.
  destruct (data (storage d) !! k) as [v|]; simpl;
    [destruct (Deleted v)|]; reflexivity.
Qed.

Lemma dispatch_memory_keeps (d : Database MemoryStorage) (msg : dbMessage)
    (now : Z) (key : string) :
  is_Some (stored key d) -> is_Some (stored key (final (dispatch msg now d))).
Proof.
  intros P. rewrite dispatch_run.
  destruct msg as [[delta]|[k bytes]|m|[k]|]; simpl.
  - destruct (ReceiveRemote_memory delta d) as (_ & _ & _ & L).
    change (dbMessageLoop.receive {| delta := delta |} d)
      with (Database_ReceiveRemote delta d).
    rewrite L. case_bool_decide; [|exact P].
    unfold resolve. destruct (stored key d) as [x|]; [|eauto].
    destruct (existingIsConflictWinner x (DValue delta)); eauto.
  - change (dbMessageLoop.set {| set_key := k; set_value := bytes |} now d)
      with (writeOne k now (Some bytes) d).
    rewrite writeOne_memory. unfold stored, final. simpl.
    destruct (decide (k = key)) as [->|N].
    + rewrite lookup_insert_eq. eauto.
    + now rewrite lookup_insert_ne.
  - now rewrite get_memory.
  - change (dbMessageLoop.delete {| delete_key := k |} now d)
      with (writeOne k now None d).
    rewrite writeOne_memory. unfold stored, final. simpl.
    destruct (decide (k = key)) as [->|N].
    + rewrite lookup_insert_eq. eauto.
    + now rewrite lookup_insert_ne.
  - exact P.
Qed.

(** X12: on the in-memory backend a local write ([Set] or [Delete]) never
    fails; the value it leaves under the key carries this node's identity,
    the clock reading of the write, the deletion flag and the bytes of the
    request (none for a [Delete]); no other key changes. *)
Theorem local_write_in_memory (d : Database MemoryStorage) (key : string)
    (now : Z) (w : option (list byte)) :
  result (writeOne key now w d) = None /\
  (exists v,
      stored key (final (writeOne key now w d)) = Some v /\
      ModifiedBy v = nodeID d /\
      ModifiedAt v = now /\
      Deleted v = match w with Some _ => false | None => true end /\
      Content v = default [] w) /\
  (forall key', key' <> key ->
      stored key' (final (writeOne key now w d)) = stored key' d).
Proof.
  rewrite writeOne_memory. unfold result, final, stored. simpl.
  split; [reflexivity|]. split.
  - eexists. rewrite lookup_insert_eq. split; [reflexivity|].
    now destruct w.
  - intros key' N. now rewrite lookup_insert_ne by congruence.
Qed.

Lemma local_write_in_memory_witness :
  let d := memoryDatabase nodeA [("j", newerByB)] in
  stored "j" (final (writeOne "k" 9 None d)) = stored "j" d.
Proof.
  intros d.
  apply (proj2 (proj2 (local_write_in_memory d "k" 9 None)) "j").
  discriminate.
Defined.

(** X13: on the in-memory backend [ReceiveRemote] never fails; under the
    delta's key it leaves the delta's value or the value that was there, so
    the key has a value afterwards in any case; no other key changes. *)
Theorem ReceiveRemote_in_memory (d : Database MemoryStorage) (delta : Delta) :
  result (Database_ReceiveRemote delta d) = None /\
  (stored (Key delta) (final (Database_ReceiveRemote delta d)) = Some (DValue delta) \/
   stored (Key delta) (final (Database_ReceiveRemote delta d)) = stored (Key delta) d) /\
  is_Some (stored (Key delta) (final (Database_ReceiveRemote delta d))) /\
  (forall key, key <> Key delta ->
      stored key (final (Database_ReceiveRemote delta d)) = stored key d).
Proof.
  destruct (ReceiveRemote_memory delta d) as (R & _ & _ & L).
  split; [exact R|].
  assert (E : stored (Key delta) (final (Database_ReceiveRemote delta d)) =
              resolve (stored (Key delta) d) (DValue delta)).
  { rewrite L. now rewrite bool_decide_eq_true_2. }
  rewrite E. unfold resolve. repeat split.
  - destruct (stored (Key delta) d) as [x|]; [|now left].
    destruct (existingIsConflictWinner x (DValue delta)); [now left|now right].
  - destruct (stored (Key delta) d) as [x|]; [|eauto].
    destruct (existingIsConflictWinner x (DValue delta)); eauto.
  - intros key N. rewrite L. now rewrite bool_decide_eq_false_2 by congruence.
Qed.

Lemma ReceiveRemote_in_memory_witness :
  let d := memoryDatabase nodeA [("j", newerByB)] in
  stored "j" (final (Database_ReceiveRemote (mkDelta "k" olderByA) d)) = stored "j" d.
Proof.
  intros d.
  apply (proj2 (proj2 (proj2 (ReceiveRemote_in_memory d (mkDelta "k" olderByA)))) "j").
  discriminate.
Defined.

(** X14: on the in-memory backend no request ever removes a key: a key
    that holds a value (a tombstone included) holds one after any inbox. *)
Theorem keys_are_never_removed (inbox : list (Z * dbMessage))
    (d : Database MemoryStorage) (key : string) :
  is_Some (stored key d) ->
  is_Some (stored key (final (dbMessageLoop inbox d))).
Proof.
  revert d. induction inbox as [|[now msg] rest IH]; intros d P; [exact P|].
  rewrite dbMessageLoop_cons. unfold final at 1. cbn [fst snd].
  apply IH. destruct (turn_run msg now d) as (-> & _ & _).
  now apply dispatch_memory_keeps.
Qed.

Lemma keys_are_never_removed_witness :
  is_Some (stored "k"
             (final (dbMessageLoop
                       [(1, newDeleteMessage {| delete_key := "k" |});
                        (2, newReceiveMessage {| delta := mkDelta "k" newerByB |})]
                       (memoryDatabase nodeA [("k", olderByA)])))).
Proof.
  apply (keys_are_never_removed _ (memoryDatabase nodeA [("k", olderByA)]) "k").
  eexists. reflexivity.
Defined.

(** X15: [NewMemoryDatabase] fails exactly when drawing the random identity
    fails, with that error; otherwise it yields a database with the drawn
    identity, the same one its storage reports, in which [Get] of any key
    answers [hasValue = false] and no error. *)
Theorem fresh_memory_database :
  (forall id, exists d,
      NewMemoryDatabase (id, None) = (Some d, None) /\
      nodeID d = id /\
      fst (Storage_GetNodeID (storage d)) = (id, None) /\
      forall key, result (Database_Get key d) = (mkGetResult false [], None)) /\
  (forall id e, NewMemoryDatabase (id, Some e) = (None, Some e)).
Proof.
  split; [|reflexivity].
  intros id. eexists. split; [reflexivity|]. repeat split.
Qed.

(** X16: the scenario of the package's test, for any key, payload, clock
    readings and starting content: [Set], [Get], [Delete], [Get], [Close]
    are answered with no error, the payload, no error, and
    [hasValue = false]; the Close is not answered. *)
Theorem set_get_delete_get (d : Database MemoryStorage) (key : string)
    (bytes : list byte) (n1 n2 n3 n4 n5 : Z) :
  snd (result (dbMessageLoop
                 [(n1, newSetMessage {| set_key := key; set_value := bytes |});
                  (n2, newGetMessage {| get_key := key |});
                  (n3, newDeleteMessage {| delete_key := key |});
                  (n4, newGetMessage {| get_key := key |});
                  (n5, Database_Close)] d)) =
    [ReplyError None;
     ReplyGet (mkTryGet (mkGetResult true bytes) None);
     ReplyError None;
     ReplyGet (mkTryGet (mkGetResult false []) None)].
Proof.
  set (d1 := final (writeOne key n1 (Some bytes) d)).
  set (d2 := final (writeOne key n3 None d1)).
  assert (R : forall inbox (x : Database MemoryStorage) now msg,
             snd (result (dbMessageLoop ((now, msg) :: inbox) x)) =
             snd (result (dispatch msg now x))
               ++ snd (result (dbMessageLoop inbox (final (dispatch msg now x))))).
  { intros inbox x now msg. rewrite dbMessageLoop_cons.
    destruct (turn_run msg now x) as (-> & _ & ->). reflexivity. }
  rewrite R, dispatch_run. cbn [fst snd result final].
  change (dbMessageLoop.set {| set_key := key; set_value := bytes |} n1 d)
    with (writeOne key n1 (Some bytes) d). fold d1.
  rewrite R, dispatch_run. cbn [fst snd result final]. rewrite get_memory.
  rewrite R, dispatch_run. cbn [fst snd result final].
  change (dbMessageLoop.delete {| delete_key := key |} n3 d1)
    with (writeOne key n3 None d1). fold d2.
  rewrite R, dispatch_run. cbn [fst snd result final]. rewrite get_memory.
  rewrite R, dispatch_run. cbn [fst snd result final].
  rewrite (get_memory_result d1), (get_memory_result d2).
  unfold d2. rewrite !writeOne_memory. unfold stored, final. simpl.
  rewrite lookup_insert_eq. simpl.
  unfold d1. rewrite writeOne_memory. unfold stored, final. simpl.
  rewrite lookup_insert_eq. reflexivity.
Qed.

(** ** The conflict resolver as an order (core.go, 98-103) *)

Section IdentityText.

Lemma hexDigit_inj (n m : N) :
  (n < 16)%N -> (m < 16)%N -> hexDigit n = hexDigit m -> n = m.
Proof.
  intros Hn Hm E. apply N2Nat.inj. unfold hexDigit in E.
  assert (Bi : (N.to_nat n < 16)%nat) by lia.
  assert (Bj : (N.to_nat m < 16)%nat) by lia.
  remember (N.to_nat n) as i eqn:Ei. remember (N.to_nat m) as j eqn:Ej.
  clear Ei Ej Hn Hm n m.
  do 16 (destruct i as [|i];
         [do 16 (destruct j as [|j];
                 [first [reflexivity | discriminate E]|]); lia|]).
  lia.
Qed.

Lemma nibbles_bounded (b : byte) :
  (N.shiftr (Byte.to_N b) 4 < 16)%N /\ (N.land (Byte.to_N b) 15 < 16)%N.
Proof. destruct b; split; reflexivity. Qed.

Lemma nibbles_inj (b b' : byte) :
  N.shiftr (Byte.to_N b) 4 = N.shiftr (Byte.to_N b') 4 ->
  N.land (Byte.to_N b) 15 = N.land (Byte.to_N b') 15 ->
  b = b'.
Proof.
  intros Hh Hl.
  assert (R : forall x : byte,
             Byte.of_N (16 * N.shiftr (Byte.to_N x) 4 + N.land (Byte.to_N x) 15)
             = Some x).
  { intros x. destruct x; reflexivity. }
  pose proof (R b) as Rb. rewrite Hh, Hl, R in Rb. congruence.
Qed.

Lemma hexEncode_inj (l l' : list byte) : hexEncode l = hexEncode l' -> l = l'.
Proof.
  revert l'. induction l as [|b l IH]; intros [|b' l'] E;
    try discriminate E; [reflexivity|].
  simpl in E. injection E as Eh El Er.
  destruct (nibbles_bounded b) as [Bh Bl], (nibbles_bounded b') as [Bh' Bl'].
  f_equal.
  - apply nibbles_inj; now apply hexDigit_inj.
  - now apply IH.
Qed.

Lemma hexEncode_length (l : list byte) :
  String.length (hexEncode l) = (2 * length l)%nat.
Proof. induction l as [|b l IH]; simpl; [reflexivity|]. rewrite IH. lia. Qed.

Lemma String_app_inj (s1 t1 s2 t2 : string) :
  String.length s1 = String.length t1 ->
  s1 +:+ s2 = t1 +:+ t2 -> s1 = t1 /\ s2 = t2.
Proof.
  revert t1. induction s1 as [|c s1 IH]; intros [|c' t1] L E;
    try discriminate L.
  - now split.
  - cbn in E. injection E as -> E. injection L as L.
    destruct (IH _ L E) as [-> ->]. now split.
Qed.

Lemma UUID_parts (u : UUID) :
  u = take 4 u ++ take 2 (drop 4 u) ++ take 2 (drop 6 u)
        ++ take 2 (drop 8 u) ++ drop 10 u.
Proof.
  rewrite <- (take_drop 4 u) at 1. f_equal.
  rewrite <- (take_drop 2 (drop 4 u)) at 1. f_equal.
  rewrite drop_drop. change (4 + 2)%nat with 6%nat.
  rewrite <- (take_drop 2 (drop 6 u)) at 1. f_equal.
  rewrite drop_drop. change (6 + 2)%nat with 8%nat.
  rewrite <- (take_drop 2 (drop 8 u)) at 1. f_equal.
  now rewrite drop_drop.
Qed.

Lemma UUID_String_inj (u u' : UUID) :
  length u = 16%nat -> length u' = 16%nat ->
  UUID_String u = UUID_String u' -> u = u'.
Proof.
  intros L L'. unfold UUID_String. intros E.
  apply String_app_inj in E as [E1 E];
    [|rewrite !hexEncode_length, !length_take; lia].
  apply String_app_inj in E as [_ E]; [|reflexivity].
  apply String_app_inj in E as [E2 E];
    [|rewrite !hexEncode_length, !length_take, !length_drop; lia].
  apply String_app_inj in E as [_ E]; [|reflexivity].
  apply String_app_inj in E as [E3 E];
    [|rewrite !hexEncode_length, !length_take, !length_drop; lia].
  apply String_app_inj in E as [_ E]; [|reflexivity].
  apply String_app_inj in E as [E4 E];
    [|rewrite !hexEncode_length, !length_take, !length_drop; lia].
  apply String_app_inj in E as [_ E]; [|reflexivity].
  apply hexEncode_inj in E1, E2, E3, E4, E.
  rewrite (UUID_parts u), (UUID_parts u'). congruence.
Qed.

End IdentityText.

(** X17: [existingIsConflictWinner] is a strict order on values: no value
    wins over itself, two values never win over each other, and winning is
    transitive.  It decides between any two values that differ in timestamp
    or in writer: if neither wins over the other, the two have the same
    [ModifiedAt] and (for 16-byte identities) the same [ModifiedBy]. *)
Theorem conflict_winner_is_a_strict_order :
  (forall v, existingIsConflictWinner v v = false) /\
  (forall a b,
      existingIsConflictWinner a b = true ->
      existingIsConflictWinner b a = false) /\
  (forall a b c,
      existingIsConflictWinner a b = true ->
      existingIsConflictWinner b c = true ->
      existingIsConflictWinner a c = true) /\
  (forall a b,
      length (ModifiedBy a) = 16%nat -> length (ModifiedBy b) = 16%nat ->
      existingIsConflictWinner a b = false ->
      existingIsConflictWinner b a = false ->
      ModifiedAt a = ModifiedAt b /\ ModifiedBy a = ModifiedBy b).
Proof.
  split; [exact winner_irrefl|]. split; [|split; [exact winner_trans|]].
  - intros a b W. destruct (existingIsConflictWinner b a) eqn:W'; [|reflexivity].
    pose proof (winner_trans _ _ _ W W') as C.
    rewrite winner_irrefl in C. discriminate.
  - intros a b La Lb W W'. destruct (winner_tie _ _ W W') as [At By].
    split; [exact At|]. now apply UUID_String_inj.
Qed.

Lemma conflict_winner_is_a_strict_order_witness :
  existingIsConflictWinner tiedByB tiedByA = false /\
  existingIsConflictWinner newerByB tiedByB = true /\
  (ModifiedAt olderByA = ModifiedAt tiedByA /\
   ModifiedBy olderByA = ModifiedBy tiedByA).
Proof.
  destruct conflict_winner_is_a_strict_order as (_ & A & T & D).
  split; [|split].
  - apply (A tiedByA tiedByB). reflexivity.
  - apply (T newerByB tiedByA tiedByB); reflexivity.
  - apply (D olderByA tiedByA); reflexivity.
Defined.

(** ** What a remote delta can do (core.go, 97-115) *)

(** X18: once its read has succeeded, [ReceiveRemote] ends in one of two
    ways.  Either it makes no further Storage call and returns no error (a
    delta that is not stored is not an error), or it makes one
    [Storage.Set], of the delta's own value under the delta's own key, and
    returns what that [Set] returned. *)
Theorem ReceiveRemote_outcomes {S : Type} `{Storage S}
    (d : Database S) (delta : Delta) (cur : option Value) (s1 : S) :
  Storage_Get (Key delta) (storage d) = ((cur, None), s1) ->
  Database_ReceiveRemote delta d =
    (None, mkDatabase s1 (nodeID d), [CallGet (Key delta)]) \/
  Database_ReceiveRemote delta d =
    (fst (Storage_Set (Key delta) (DValue delta) s1),
     mkDatabase (snd (Storage_Set (Key delta) (DValue delta) s1)) (nodeID d),
     [CallGet (Key delta); CallSet (Key delta) (DValue delta)]).
Proof.
  intros G. unfold Database_ReceiveRemote, dbMessageLoop.receive. simpl.
  rewrite (handleReceive_ok d delta cur s1 G).
  destruct (match cur with None => true | Some _ => _ end); [now right|now left].
Qed.

Lemma ReceiveRemote_outcomes_witness :
  let d := readOnlyDatabase nodeA [] in
  let delta := mkDelta "k" olderByA in
  Database_ReceiveRemote delta d = (None, d, [CallGet "k"]) \/
  Database_ReceiveRemote delta d =
    (Some "read-only", d, [CallGet "k"; CallSet "k" olderByA]).
Proof.
  intros d delta.
  exact (ReceiveRemote_outcomes d delta None (storage d) eq_refl).
Defined.
